(** * The news scoring pipeline: analyzer and fetcher

    A shallow embedding of [analyzer/news_analyzer.py] (class
    [NewsAnalyzer]) and [scraper/news_fetcher.py] (class [NewsFetcher]),
    followed by the properties of the scoring, extraction, deduplication
    and trending code.

    Conventions of the embedding:
    - a Python [str] is a [string] whose characters are read as the code
      points 0..255 (Latin-1); the builtins [lower], [strip], [title] and
      the regex classes [\d] and [\s] are written out for that range;
    - a Python [float] is an IEEE 754 binary64 value, [spec_float] with
      precision 53 and maximal exponent 1024, and every operation rounds
      as the hardware does;
    - a Python [dict] used as a record is a Rocq record whose optional
      keys are [option] fields; a [dict] used as a table is an
      association list in insertion order;
    - code that may raise returns a [py_result]. *)

From Stdlib Require Import ZArith List Bool String Ascii Lia PeanoNat.
From Stdlib Require Import Permutation Sorted.
From Stdlib Require Import Floats.SpecFloat.
Import ListNotations.

Local Open Scope string_scope.
Local Open Scope list_scope.

(* ================================================================= *)
(** ** Python values: results, strings, floats *)

(** The exceptions the modelled code can meet. *)
Inductive py_exn : Type :=
| TypeError
| ValueError
| AttributeError
| OtherError.

Inductive py_result (A : Type) : Type :=
| Returned (a : A)
| Raised (e : py_exn).

Arguments Returned {A} a.
Arguments Raised {A} e.

Module PyStr.

Definition code (c : ascii) : N := N_of_ascii c.

Definition in_range (lo hi : N) (c : ascii) : bool :=
  (N.leb lo (code c) && N.leb (code c) hi)%bool.

Definition is_ascii_upper (c : ascii) : bool := in_range 65 90 c.
Definition is_ascii_lower (c : ascii) : bool := in_range 97 122 c.
Definition is_ascii_letter (c : ascii) : bool :=
  (is_ascii_upper c || is_ascii_lower c)%bool.
Definition is_digit (c : ascii) : bool := in_range 48 57 c.

(** [str.isspace] on one character, which is also the regex class [\s]:
    TAB..CR, FS..US, space, NEL (0x85) and NBSP (0xA0). *)
Definition is_space (c : ascii) : bool :=
  (in_range 9 13 c || in_range 28 32 c
   || N.eqb (code c) 133 || N.eqb (code c) 160)%bool.

(** [str.lower] on one character: A-Z and the Latin-1 capitals
    0xC0..0xDE (the multiplication sign 0xD7 apart) move up by 32. *)
Definition lower_char (c : ascii) : ascii :=
  if (is_ascii_upper c
      || (in_range 192 222 c && negb (N.eqb (code c) 215)))%bool
  then ascii_of_N (code c + 32) else c.

Definition upper_ascii_char (c : ascii) : ascii :=
  if is_ascii_lower c then ascii_of_N (code c - 32) else c.

Fixpoint map_chars (f : ascii -> ascii) (s : string) : string :=
  match s with
  | EmptyString => EmptyString
  | String c s' => String (f c) (map_chars f s')
  end.

Definition lower (s : string) : string := map_chars lower_char s.

Fixpoint lstrip (s : string) : string :=
  match s with
  | EmptyString => EmptyString
  | String c s' => if is_space c then lstrip s' else s
  end.

Fixpoint rev_string (acc s : string) : string :=
  match s with
  | EmptyString => acc
  | String c s' => rev_string (String c acc) s'
  end.

Definition rstrip (s : string) : string :=
  rev_string EmptyString (lstrip (rev_string EmptyString s)).

Definition strip (s : string) : string := rstrip (lstrip s).

(** [str.title] for text whose letters are ASCII (it is only applied to
    the entries of [important_companies]): a letter that follows a
    letter is lowered, any other letter is raised. *)
Fixpoint title_from (prev_cased : bool) (s : string) : string :=
  match s with
  | EmptyString => EmptyString
  | String c s' =>
      String (if is_ascii_letter c
              then (if prev_cased then lower_char c else upper_ascii_char c)
              else c)
             (title_from (is_ascii_letter c) s')
  end.

Definition title (s : string) : string := title_from false s.

(** [k in s] for two strings: [k] occurs in [s] as a contiguous run. *)
Fixpoint contains (k s : string) : bool :=
  (prefix k s
   || match s with
      | EmptyString => false
      | String _ s' => contains k s'
      end)%bool.

(** [s[:n]]. *)
Fixpoint take (n : nat) (s : string) : string :=
  match n, s with
  | O, _ => EmptyString
  | _, EmptyString => EmptyString
  | S n', String c s' => String c (take n' s')
  end.

(** [x in l] for a list of strings. *)
Definition mem (x : string) (l : list string) : bool :=
  existsb (String.eqb x) l.

(** Truth value of an optional string: [None] and [''] are false. *)
Definition truthy (o : option string) : bool :=
  match o with
  | Some (String _ _) => true
  | _ => false
  end.

End PyStr.

Module PyFloat.

Definition float : Type := spec_float.

Definition prec : Z := 53.
Definition emax : Z := 1024.

(** The value of an [int] as a float, rounded to nearest even. *)
Definition of_int (n : Z) : float := binary_normalize prec emax n 0 false.

Definition add : float -> float -> float := SFadd prec emax.
Definition mul : float -> float -> float := SFmul prec emax.
Definition div : float -> float -> float := SFdiv prec emax.
Definition ltb : float -> float -> bool := SFltb.
Definition leb : float -> float -> bool := SFleb.

(** The quotient of two integers rounded once, as [int / int] is. The
    integers enter the division with their exact mantissas. *)
Definition exact (n : Z) : float :=
  match n with
  | Z0 => S754_zero false
  | Zpos p => S754_finite false p 0
  | Zneg p => S754_finite true p 0
  end.

Definition int_div (n d : Z) : float := div (exact n) (exact d).

(** A decimal literal [n / 10^k], such as [0.15 = lit 15 2]: the double
    nearest to it. *)
Definition lit (n : Z) (k : nat) : float := int_div n (10 ^ Z.of_nat k).

Definition zero : float := S754_zero false.
Definition one : float := of_int 1.

(** The builtin [min(a, b)]: [b] when [b < a], else [a]. *)
Definition min (a b : float) : float := if ltb b a then b else a.

(** [a > b] and [a >= b]. *)
Definition gtb (a b : float) : bool := ltb b a.
Definition geb (a b : float) : bool := leb b a.

(** The score interval: [0.0 <= x <= 1.0]. *)
Definition in_unit (x : float) : bool := (leb zero x && leb x one)%bool.

Definition float_eq_dec (x y : float) : {x = y} + {x <> y}.
Proof.
  decide equality; try apply Z.eq_dec; try apply Pos.eq_dec;
    apply Bool.bool_dec.
Defined.

(** Decimal digits of a string, most significant first. *)
Fixpoint digits_value (acc : Z) (s : string) : option Z :=
  match s with
  | EmptyString => Some acc
  | String c s' =>
      if PyStr.is_digit c
      then digits_value (10 * acc + Z.of_N (PyStr.code c - 48)) s'
      else None
  end.

Fixpoint split_dot (s : string) : string * option string :=
  match s with
  | EmptyString => (EmptyString, None)
  | String c s' =>
      if Ascii.eqb c "."%char then (EmptyString, Some s')
      else let '(a, b) := split_dot s' in (String c a, b)
  end.

Definition nonempty (s : string) : bool :=
  match s with EmptyString => false | _ => true end.

(** The builtin [float(s)] on the texts the amount patterns capture,
    [\d+(?:\.\d+)?]: digits with an optional fraction. Any other text is
    taken to raise [ValueError] ([None]); signs, exponents, [inf], [nan],
    underscores and surrounding blanks, which [float] also reads, cannot
    come out of the capture group. *)
Definition of_string (s : string) : option float :=
  match split_dot s with
  | (ip, None) =>
      if nonempty ip
      then option_map (fun n => int_div n 1) (digits_value 0 ip)
      else None
  | (ip, Some fp) =>
      if (nonempty ip && nonempty fp)%bool
      then match digits_value 0 ip, digits_value 0 fp with
           | Some a, Some b =>
               let k := String.length fp in
               Some (int_div (a * 10 ^ Z.of_nat k + b) (10 ^ Z.of_nat k))
           | _, _ => None
           end
      else None
  end.

End PyFloat.

Module PyList.

(** [sorted(xs, key=..., reverse=True)] and [xs.sort(key=...,
    reverse=True)]: descending, and stable, so entries with equal keys
    keep their order. *)
Fixpoint insert_desc {A : Type} (key : A -> Z) (x : A) (sorted : list A)
  : list A :=
  match sorted with
  | [] => [x]
  | y :: rest =>
      if (key x <? key y)%Z then y :: insert_desc key x rest
      else x :: sorted
  end.

Definition sorted_desc {A : Type} (key : A -> Z) (xs : list A) : list A :=
  fold_right (insert_desc key) [] xs.

End PyList.

(* ================================================================= *)
(** ** The [re] module: backtracking matching with one capture group *)

Module Regex.

(** A one-character item of a pattern. *)
Inductive cls : Type :=
| CChar (c : ascii)            (* a literal character *)
| CRange (lo hi : ascii)       (* [lo-hi] *)
| CDigit                       (* \d *)
| CSpace.                      (* \s *)

(** Patterns. [Group] is the capturing group [( )]; every pattern of the
    analyzer has exactly one, all its other groups are [(?: )]. *)
Inductive re : Type :=
| Eps
| Chr (k : cls)
| Cat (a b : re)
| Alt (a b : re)
| Star (a : re)
| Group (a : re).

Definition Plus (a : re) : re := Cat a (Star a).   (* a+ *)
Definition Opt (a : re) : re := Alt a Eps.         (* a? *)

Fixpoint Lit (s : string) : re :=
  match s with
  | EmptyString => Eps
  | String c EmptyString => Chr (CChar c)
  | String c s' => Cat (Chr (CChar c)) (Lit s')
  end.

Definition cls_match (k : cls) (c : ascii) : bool :=
  match k with
  | CChar d => Ascii.eqb c d
  | CRange lo hi => PyStr.in_range (PyStr.code lo) (PyStr.code hi) c
  | CDigit => PyStr.is_digit c
  | CSpace => PyStr.is_space c
  end.

(** The other case of an ASCII letter. *)
Definition swap_case (c : ascii) : ascii :=
  if PyStr.is_ascii_upper c then ascii_of_N (PyStr.code c + 32)
  else if PyStr.is_ascii_lower c then ascii_of_N (PyStr.code c - 32)
  else c.

(** With [re.IGNORECASE] a character also matches through its other
    case. *)
Definition chr_match (ignorecase : bool) (k : cls) (c : ascii) : bool :=
  (cls_match k c || (ignorecase && cls_match k (swap_case c)))%bool.

(** One way of matching: the text left after the match and the text
    captured by the group, if the group took part. *)
Definition outcome : Type := (string * option string)%type.

Definition later (c1 c2 : option string) : option string :=
  match c2 with Some _ => c2 | None => c1 end.

(** All the ways [r] matches a prefix of [s], in the order in which the
    backtracking matcher tries them: the head is the match it reports.
    [a*] is greedy and stops repeating when an iteration consumes
    nothing. *)
Fixpoint rmatch (ic : bool) (r : re) (s : string) {struct r} : list outcome :=
  match r with
  | Eps => [(s, None)]
  | Chr k =>
      match s with
      | String c s' => if chr_match ic k c then [(s', None)] else []
      | EmptyString => []
      end
  | Cat a b =>
      flat_map (fun o1 : outcome =>
                  map (fun o2 : outcome => (fst o2, later (snd o1) (snd o2)))
                      (rmatch ic b (fst o1)))
               (rmatch ic a s)
  | Alt a b => rmatch ic a s ++ rmatch ic b s
  | Star a =>
      (fix star (fuel : nat) (s : string) {struct fuel} : list outcome :=
         match fuel with
         | O => [(s, None)]
         | S fuel' =>
             flat_map (fun o1 : outcome =>
                         if Nat.ltb (String.length (fst o1)) (String.length s)
                         then map (fun o2 : outcome =>
                                     (fst o2, later (snd o1) (snd o2)))
                                  (star fuel' (fst o1))
                         else [])
                      (rmatch ic a s)
             ++ [(s, None)]
         end) (String.length s) s
  | Group a =>
      map (fun o : outcome =>
             (fst o,
              Some (PyStr.take (String.length s - String.length (fst o)) s)))
          (rmatch ic a s)
  end.

Definition tail (s : string) : string :=
  match s with
  | EmptyString => EmptyString
  | String _ s' => s'
  end.

(** [re.findall] for a pattern with one group: scan from the left, at
    each position take the first way of matching, keep the group's text
    (the empty string when the group took no part) and go on after the
    match; where nothing matches, or the match is empty, move on by one
    character. *)
Fixpoint findall_from (fuel : nat) (ic : bool) (r : re) (s : string)
  : list string :=
  match fuel with
  | O => []
  | S fuel' =>
      match rmatch ic r s with
      | (rest, g) :: _ =>
          let cap := match g with Some t => t | None => EmptyString end in
          if Nat.ltb (String.length rest) (String.length s)
          then cap :: findall_from fuel' ic r rest
          else cap :: match s with
                      | EmptyString => []
                      | String _ s' => findall_from fuel' ic r s'
                      end
      | [] =>
          match s with
          | EmptyString => []
          | String _ s' => findall_from fuel' ic r s'
          end
      end
  end.

Definition findall (ic : bool) (r : re) (s : string) : list string :=
  findall_from (S (String.length s)) ic r s.

Definition digit : re := Chr CDigit.
Definition space : re := Chr CSpace.
Definition upper : re := Chr (CRange "A" "Z").
Definition lowercase : re := Chr (CRange "a" "z").

(** [\d+(?:\.\d+)?] *)
Definition number : re :=
  Cat (Plus digit) (Opt (Cat (Chr (CChar ".")) (Plus digit))).

(** [[A-Z][a-z]+(?:\s+[A-Z][a-z]+)*], the run of capitalized words.
    (In the comments that quote a pattern, a blank is put between a star
    and a closing parenthesis.) *)
Definition cap_words : re :=
  Cat (Cat upper (Plus lowercase))
      (Star (Cat (Plus space) (Cat upper (Plus lowercase)))).



(** The texts a pattern matches in full. *)
Inductive lang (ic : bool) : re -> string -> Prop :=
| lang_eps : lang ic Eps EmptyString
| lang_chr (k : cls) (c : ascii) :
    chr_match ic k c = true -> lang ic (Chr k) (String c EmptyString)
| lang_cat (a b : re) (u v : string) :
    lang ic a u -> lang ic b v -> lang ic (Cat a b) (u ++ v)
| lang_alt_l (a b : re) (u : string) :
    lang ic a u -> lang ic (Alt a b) u
| lang_alt_r (a b : re) (u : string) :
    lang ic b u -> lang ic (Alt a b) u
| lang_star_nil (a : re) : lang ic (Star a) EmptyString
| lang_star_cons (a : re) (u v : string) :
    lang ic a u -> lang ic (Star a) v -> lang ic (Star a) (u ++ v)
| lang_group (a : re) (u : string) :
    lang ic a u -> lang ic (Group a) u.

(** The bodies of the capturing groups of a pattern. *)
Fixpoint groups (r : re) : list re :=
  match r with
  | Eps => []
  | Chr _ => []
  | Cat a b => groups a ++ groups b
  | Alt a b => groups a ++ groups b
  | Star a => groups a
  | Group a => a :: groups a
  end.

(** A syntactic test: the group takes part in every match. *)
Fixpoint always_captures (r : re) : bool :=
  match r with
  | Eps => false
  | Chr _ => false
  | Cat a b => (always_captures a || always_captures b)%bool
  | Alt a b => (always_captures a && always_captures b)%bool
  | Star _ => false
  | Group _ => true
  end.

End Regex.

(* ================================================================= *)
(** ** The data passed between the stages *)

(** A [datetime]: naive (no [tzinfo], what [datetime.utcnow()] returns)
    or aware (what the fetcher builds with [tzinfo=timezone.utc]); [us]
    counts the microseconds since the epoch. Subtracting or ordering a
    naive and an aware [datetime] raises [TypeError]. *)
Inductive datetime : Type :=
| Naive (us : Z)
| Aware (us : Z).

(** [datetime.min], 0001-01-01 00:00, naive. *)
Definition datetime_min : datetime := Naive (-62135596800000000).

(** A news item, the dict the fetcher builds. A key that is absent is
    [None]; the code reads the text keys with [news.get(key, '')]. *)
Record news : Type := mk_news {
  title : option string;
  link : option string;
  summary : option string;
  content : option string;
  source : option string;
  published_date : option datetime
}.

Definition get (o : option string) : string :=
  match o with Some s => s | None => EmptyString end.

(** Truth value of the dict: false only when it has no key at all. *)
Definition news_truthy (n : news) : bool :=
  match title n, link n, summary n, content n, source n, published_date n with
  | None, None, None, None, None, None => false
  | _, _, _, _, _, _ => true
  end.

(** What [json.loads] can return. *)
Inductive json : Type :=
| JNull
| JBool (b : bool)
| JInt (n : Z)
| JFloat (f : PyFloat.float)
| JStr (s : string)
| JList (items : list string)      (* an array of strings *)
| JOther.                          (* any other array, any object *)

(** The [analysis] dict. The first nine keys are set by
    [_basic_analysis]; the next four come from the LLM reply when there
    is one; the last two are added by [analyze_single_news]. *)
Record analysis : Type := mk_analysis {
  relevance_score : PyFloat.float;
  importance_score : PyFloat.float;
  funding_amount : option string;
  funding_round : option string;
  companies : list string;
  investors : list string;
  category : string;
  urgency : string;
  key_points : json;
  ai_summary : option json;
  market_impact : option json;
  trend_analysis : option json;
  risk_assessment : option json;
  analyzed_at : option Z;
  overall_score : option PyFloat.float
}.

(** An item after analysis: [{**news, 'analysis': analysis}], or the bare
    [news] when the analysis was given up. *)
Record analyzed : Type := mk_analyzed {
  item : news;
  analysis_of : option analysis
}.

(** What the LLM collaborator does with one request: the call raises, or
    it returns a text, which [json.loads] rejects, or parses to an object
    (its members in the order of the text), or parses to something that
    is not an object. *)
Inductive llm_reply : Type :=
| CallRaised
| NotJson (text : string)
| ParsedObject (fields : list (string * json))
| ParsedOther.

(** The surroundings of one run: whether [self.client] and the API key
    are set, what the LLM answers for an item, and [datetime.utcnow()]. *)
Record env : Type := mk_env {
  client_configured : bool;
  llm : news -> llm_reply;
  utcnow : Z
}.

(* ================================================================= *)
(** ** [class NewsAnalyzer] *)

Module NewsAnalyzer.

Import PyFloat.

Definition funding_rounds : list string :=
  [ "pre-seed"; "seed"; "series a"; "series b"; "series c"; "series d";
    "bridge round"; "ipo"; "acquisition"; "merger" ].

Definition important_companies : list string :=
  [ "openai"; "anthropic"; "google"; "microsoft"; "meta"; "amazon";
    "apple"; "nvidia"; "tesla"; "spacex"; "deepmind"; "hugging face";
    "stability ai"; "midjourney"; "runway"; "character.ai"; "perplexity" ].

Definition ai_weights : list (string * float) :=
  [ ("artificial intelligence", lit 2 1); ("ai", lit 15 2);
    ("machine learning", lit 2 1); ("deep learning", lit 15 2);
    ("neural network", lit 1 1); ("llm", lit 2 1);
    ("openai", lit 3 1); ("chatgpt", lit 25 2); ("gpt", lit 2 1);
    ("claude", lit 2 1); ("anthropic", lit 25 2);
    ("google ai", lit 2 1); ("microsoft ai", lit 2 1) ].

Definition investment_weights : list (string * float) :=
  [ ("funding", lit 3 1); ("investment", lit 25 2);
    ("venture capital", lit 3 1); ("series a", lit 35 2);
    ("series b", lit 35 2); ("series c", lit 35 2);
    ("ipo", lit 4 1); ("acquisition", lit 4 1); ("merger", lit 35 2);
    ("startup", lit 2 1); ("valuation", lit 25 2); ("raise", lit 3 1) ].

(** [for keyword, weight in table.items(): if keyword in text:
    score += weight] *)
Fixpoint add_weights (table : list (string * float)) (text : string)
  (score : float) : float :=
  match table with
  | [] => score
  | (keyword, weight) :: rest =>
      add_weights rest text
        (if PyStr.contains keyword text then add score weight else score)
  end.

Definition _calculate_relevance_score (text : string) : float :=
  let score := zero in
  let score := add_weights ai_weights text score in
  let score := add_weights investment_weights text score in
  min score (lit 10 1).

Import Regex.

Definition units_mb : re :=
  Alt (Lit "million") (Alt (Lit "billion") (Alt (Lit "m") (Lit "b"))).

Definition amount_patterns : list re :=
  [ (* \$(\d+(?:\.\d+)?)\s*(?:million|billion|m|b) *)
    Cat (Chr (CChar "$")) (Cat (Group number) (Cat (Star space) units_mb));
    (* (\d+(?:\.\d+)?)\s*(?:million|billion)\s*(?:dollars?|\$) *)
    Cat (Group number)
        (Cat (Star space)
             (Cat (Alt (Lit "million") (Lit "billion"))
                  (Cat (Star space)
                       (Alt (Cat (Lit "dollar") (Opt (Chr (CChar "s"))))
                            (Chr (CChar "$"))))));
    (* raised\s+\$?(\d+(?:\.\d+)?)\s*(?:million|billion|m|b) *)
    Cat (Lit "raised")
        (Cat (Plus space)
             (Cat (Opt (Chr (CChar "$")))
                  (Cat (Group number) (Cat (Star space) units_mb))));
    (* funding\s+of\s+\$?(\d+(?:\.\d+)?)\s*(?:million|billion|m|b) *)
    Cat (Lit "funding")
        (Cat (Plus space)
             (Cat (Lit "of")
                  (Cat (Plus space)
                       (Cat (Opt (Chr (CChar "$")))
                            (Cat (Group number)
                                 (Cat (Star space) units_mb)))))) ].

(** [for pattern in patterns: matches = re.findall(pattern, text,
    re.IGNORECASE); if matches: return matches[0]]; else [None]. *)
Fixpoint first_capture (patterns : list re) (text : string) : option string :=
  match patterns with
  | [] => None
  | pattern :: rest =>
      match findall true pattern text with
      | m :: _ => Some m
      | [] => first_capture rest text
      end
  end.

Definition _extract_funding_amount (text : string) : option string :=
  first_capture amount_patterns text.

Fixpoint first_round (rounds : list string) (text : string) : option string :=
  match rounds with
  | [] => None
  | round_type :: rest =>
      if PyStr.contains round_type text then Some round_type
      else first_round rest text
  end.

Definition _extract_funding_round (text : string) : option string :=
  first_round funding_rounds text.

Definition company_patterns : list re :=
  [ (* ([A-Z][a-z]+(?:\s+[A-Z][a-z]+)* )\s+(?:inc|corp|ltd|llc) *)
    Cat (Group cap_words)
        (Cat (Plus space)
             (Alt (Lit "inc") (Alt (Lit "corp") (Alt (Lit "ltd") (Lit "llc")))));
    (* ([A-Z][a-z]+(?:\s+[A-Z][a-z]+)* )\s+raised *)
    Cat (Group cap_words) (Cat (Plus space) (Lit "raised"));
    (* startup\s+([A-Z][a-z]+(?:\s+[A-Z][a-z]+)* ) *)
    Cat (Lit "startup") (Cat (Plus space) (Group cap_words));
    (* company\s+([A-Z][a-z]+(?:\s+[A-Z][a-z]+)* ) *)
    Cat (Lit "company") (Cat (Plus space) (Group cap_words)) ].

(** The known companies found in the text, title-cased, in table order. *)
Fixpoint known_companies (table : list string) (text : string) : list string :=
  match table with
  | [] => []
  | company :: rest =>
      if PyStr.contains company text
      then PyStr.title company :: known_companies rest text
      else known_companies rest text
  end.

(** The list [companies] as it stands before [list(set(companies))]:
    the known companies, then the matches of each pattern, found without
    [re.IGNORECASE]. *)
Definition companies_found (text : string) : list string :=
  known_companies important_companies text
  ++ flat_map (fun pattern => findall false pattern text) company_patterns.

(** [list(set(xs))]: one copy of each element. Python does not fix the
    order of a set; the order chosen here is not used by any property. *)
Definition list_set (xs : list string) : list string :=
  nodup string_dec xs.

Definition _extract_companies (text : string) : list string :=
  list_set (companies_found text).

Definition investor_patterns : list re :=
  [ (* led\s+by\s+([A-Z][a-z]+(?:\s+[A-Z][a-z]+)* ) *)
    Cat (Lit "led")
        (Cat (Plus space) (Cat (Lit "by") (Cat (Plus space) (Group cap_words))));
    (* ([A-Z][a-z]+(?:\s+[A-Z][a-z]+)* )\s+(?:ventures?|capital|partners?) *)
    Cat (Group cap_words)
        (Cat (Plus space)
             (Alt (Cat (Lit "venture") (Opt (Chr (CChar "s"))))
                  (Alt (Lit "capital")
                       (Cat (Lit "partner") (Opt (Chr (CChar "s")))))));
    (* investors?\s+(?:include\s+)?([A-Z][a-z]+(?:\s+[A-Z][a-z]+)* ) *)
    Cat (Lit "investor")
        (Cat (Opt (Chr (CChar "s")))
             (Cat (Plus space)
                  (Cat (Opt (Cat (Lit "include") (Plus space)))
                       (Group cap_words))));
    (* backed\s+by\s+([A-Z][a-z]+(?:\s+[A-Z][a-z]+)* ) *)
    Cat (Lit "backed")
        (Cat (Plus space) (Cat (Lit "by") (Cat (Plus space) (Group cap_words)))) ].

Definition _extract_investors (text : string) : list string :=
  list_set (flat_map (fun pattern => findall true pattern text)
                     investor_patterns).

Definition categories : list (string * list string) :=
  [ ("funding", ["funding"; "investment"; "raise"; "round"; "capital"]);
    ("acquisition", ["acquisition"; "merger"; "acquired"; "bought"]);
    ("ipo", ["ipo"; "public"; "stock"; "nasdaq"; "nyse"]);
    ("product", ["launch"; "release"; "product"; "feature"; "model"]);
    ("partnership", ["partnership"; "collaboration"; "alliance"; "deal"]);
    ("research", ["research"; "paper"; "study"; "breakthrough"; "discovery"]);
    ("regulation", ["regulation"; "policy"; "law"; "government"; "ban"]) ].

(** [sum(1 for keyword in keywords if keyword in text)] *)
Definition keyword_hits (keywords : list string) (text : string) : nat :=
  List.length (filter (fun keyword => PyStr.contains keyword text) keywords).

(** [category_scores]: the categories with a positive score, in table
    order. *)
Fixpoint category_scores (table : list (string * list string))
  (text : string) : list (string * nat) :=
  match table with
  | [] => []
  | (cat, keywords) :: rest =>
      let score := keyword_hits keywords text in
      if Nat.ltb 0 score then (cat, score) :: category_scores rest text
      else category_scores rest text
  end.

(** [max(d, key=d.get)]: the first key with the greatest value. *)
Fixpoint max_by_score (best : string * nat) (rest : list (string * nat))
  : string :=
  match rest with
  | [] => fst best
  | entry :: rest' =>
      max_by_score (if Nat.ltb (snd best) (snd entry) then entry else best)
                   rest'
  end.

Definition _categorize_news (text : string) : string :=
  match category_scores categories text with
  | [] => "general"
  | first :: rest => max_by_score first rest
  end.

Definition _calculate_importance_score (a : analysis) (text : string) : float :=
  let score := zero in
  let score :=
    if PyStr.truthy (funding_amount a) then
      match of_string (get (funding_amount a)) with
      | Some amount =>
          if (PyStr.contains "billion" text
              || PyStr.contains "b" (get (funding_amount a)))%bool
          then add score (lit 4 1)
          else if geb amount (of_int 100) then add score (lit 3 1)
          else if geb amount (of_int 50) then add score (lit 2 1)
          else add score (lit 1 1)
      | None => score                 (* except: pass *)
      end
    else score in
  let important_found :=
    existsb (fun comp => PyStr.mem (PyStr.lower comp) important_companies)
            (companies a) in
  let score := if important_found then add score (lit 3 1) else score in
  let round_in (l : list string) :=
    match funding_round a with
    | Some r => PyStr.mem r l
    | None => false
    end in
  let score :=
    if round_in ["ipo"; "acquisition"; "merger"] then add score (lit 4 1)
    else if round_in ["series c"; "series d"] then add score (lit 3 1)
    else if round_in ["series a"; "series b"] then add score (lit 2 1)
    else score in
  let score :=
    if gtb (relevance_score a) (lit 8 1) then add score (lit 2 1) else score in
  min score (lit 10 1).

Definition hour_us : Z := 3600 * 1000000.

(** [(datetime.utcnow() - published_date).total_seconds() / 3600 < h]
    is decided on the whole microseconds of the difference: the two
    divisions round to nearest and [h] hours is an exact float, so the
    float test and the integer test [age < h * 3600 * 10^6] agree. *)
Definition _determine_urgency (now : Z) (a : analysis) (n : news)
  : py_result string :=
  let importance := importance_score a in
  let by_importance :=
    if gtb importance (lit 8 1) then "high"
    else if gtb importance (lit 5 1) then "medium"
    else "low" in
  match published_date n with
  | Some (Aware _) => Raised TypeError      (* naive minus aware *)
  | Some (Naive published) =>
      let age := (now - published)%Z in
      if ((age <? 2 * hour_us)%Z && gtb importance (lit 7 1))%bool
      then Returned "high"
      else if ((age <? 6 * hour_us)%Z && gtb importance (lit 5 1))%bool
      then Returned "medium"
      else Returned by_importance
  | None => Returned by_importance
  end.


Definition set_importance_score (a : analysis) (v : float) : analysis :=
  mk_analysis (relevance_score a) v (funding_amount a) (funding_round a)
              (companies a) (investors a) (category a) (urgency a)
              (key_points a) (ai_summary a) (market_impact a)
              (trend_analysis a) (risk_assessment a) (analyzed_at a)
              (overall_score a).

Definition set_urgency (a : analysis) (v : string) : analysis :=
  mk_analysis (relevance_score a) (importance_score a) (funding_amount a)
              (funding_round a) (companies a) (investors a) (category a) v
              (key_points a) (ai_summary a) (market_impact a)
              (trend_analysis a) (risk_assessment a) (analyzed_at a)
              (overall_score a).

Definition set_overall_score (a : analysis) (v : float) : analysis :=
  mk_analysis (relevance_score a) (importance_score a) (funding_amount a)
              (funding_round a) (companies a) (investors a) (category a)
              (urgency a) (key_points a) (ai_summary a) (market_impact a)
              (trend_analysis a) (risk_assessment a) (analyzed_at a)
              (Some v).

(** The text every extractor and scorer is given: title, summary and
    content, lowercased and joined by blanks. *)
Definition full_text (n : news) : string :=
  let title := PyStr.lower (get (title n)) in
  let content := PyStr.lower (get (summary n) ++ " " ++ get (content n)) in
  title ++ " " ++ content.

(** The analysis as it stands when the importance is computed: every
    extraction is in, importance and urgency still at their initial
    values. *)
Definition extracted (text : string) : analysis :=
  mk_analysis (_calculate_relevance_score text) zero
              (_extract_funding_amount text) (_extract_funding_round text)
              (_extract_companies text) (_extract_investors text)
              (_categorize_news text) "low" (JList [])
              None None None None None None.

Definition _basic_analysis (now : Z) (n : news) : py_result analysis :=
  let text := full_text n in
  let a := extracted text in
  let a := set_importance_score a (_calculate_importance_score a text) in
  match _determine_urgency now a n with
  | Returned u => Returned (set_urgency a u)
  | Raised e => Raised e
  end.

(** [d.get(key, default)] on a parsed object; of two members with the
    same name [json.loads] keeps the later. *)
Fixpoint obj_get (key : string) (default : json)
  (fields : list (string * json)) : json :=
  match fields with
  | [] => default
  | (k, v) :: rest =>
      if String.eqb k key then obj_get key v rest
      else obj_get key default rest
  end.

(** The dict [_ai_analysis] returns; a key that is absent is [None]. *)
Record ai_fields : Type := mk_ai_fields {
  ai_ai_summary : option json;
  ai_key_points : option json;
  ai_market_impact : option json;
  ai_trend_analysis : option json;
  ai_risk_assessment : option json
}.

Definition no_ai_fields : ai_fields :=
  mk_ai_fields None None None None None.

(** [_ai_analysis] never raises: the outer [except Exception] turns a
    failed call, and the [AttributeError] of [.get] on a reply that is
    not an object, into the empty dict; a reply that is not JSON keeps
    its first 200 characters as the summary. *)
Definition _ai_analysis (reply : llm_reply) : ai_fields :=
  match reply with
  | CallRaised => no_ai_fields
  | NotJson ai_result =>
      mk_ai_fields (Some (JStr (PyStr.take 200 ai_result))) None None None None
  | ParsedObject parsed_result =>
      mk_ai_fields
        (Some (obj_get "summary" (JStr "") parsed_result))
        (Some (obj_get "key_points" (JList []) parsed_result))
        (Some (obj_get "market_impact" (JInt 3) parsed_result))
        (Some (obj_get "trend_analysis" (JStr "") parsed_result))
        (Some (obj_get "risk_assessment" (JStr "") parsed_result))
  | ParsedOther => no_ai_fields
  end.

(** [{**basic_analysis, **ai_analysis, 'analyzed_at': ...}] *)
Definition merge (basic : analysis) (ai : ai_fields) (now : Z) : analysis :=
  mk_analysis (relevance_score basic) (importance_score basic)
              (funding_amount basic) (funding_round basic)
              (companies basic) (investors basic) (category basic)
              (urgency basic)
              (match ai_key_points ai with
               | Some v => v
               | None => key_points basic
               end)
              (ai_ai_summary ai) (ai_market_impact ai)
              (ai_trend_analysis ai) (ai_risk_assessment ai)
              (Some now) None.

Definition is_infinite (x : float) : bool :=
  match x with S754_infinity _ => true | _ => false end.

(** [analysis.get('market_impact', 3) / 5]: true division for a number
    ([bool] counts as [int]; an [int] quotient too large for a float
    raises [OverflowError]), [TypeError] for anything else. *)
Definition market_impact_fifth (a : analysis) : py_result float :=
  let int_case (n : Z) :=
    let q := int_div n 5 in
    if is_infinite q then Raised OtherError else Returned q in
  match market_impact a with
  | None => int_case 3%Z
  | Some (JInt n) => int_case n
  | Some (JBool b) => int_case (if b then 1 else 0)%Z
  | Some (JFloat f) => Returned (div f (of_int 5))
  | Some _ => Raised TypeError
  end.

Definition _calculate_overall_score (a : analysis) : py_result float :=
  let relevance := mul (relevance_score a) (lit 3 1) in
  let importance := mul (importance_score a) (lit 4 1) in
  match market_impact_fifth a with
  | Returned fifth =>
      let market_impact := mul fifth (lit 3 1) in
      Returned (add (add relevance importance) market_impact)
  | Raised e => Raised e
  end.

(** The body of the [try]: any exception in it is caught by [except
    Exception], which returns the bare [news]. The handler itself only
    formats a log line. *)
Definition analyze_single_news (e : env) (n : news) : py_result analyzed :=
  match _basic_analysis (utcnow e) n with
  | Raised _ => Returned (mk_analyzed n None)
  | Returned basic_analysis =>
      let ai_analysis :=
        if client_configured e then _ai_analysis (llm e n)
        else no_ai_fields in
      let a := merge basic_analysis ai_analysis (utcnow e) in
      match _calculate_overall_score a with
      | Raised _ => Returned (mk_analyzed n None)
      | Returned overall =>
          Returned (mk_analyzed n (Some (set_overall_score a overall)))
      end
  end.

(** Truth value of a returned item: the bare [news] is false only when
    it is the empty dict. *)
Definition analyzed_truthy (r : analyzed) : bool :=
  match analysis_of r with
  | Some _ => true
  | None => news_truthy (item r)
  end.

Definition batch_size : nat := 5.

(** [news_list[i:i + batch_size]] for [i = 0, batch_size, ...]. *)
Fixpoint batches (fuel : nat) (news_list : list news) : list (list news) :=
  match fuel, news_list with
  | O, _ => []
  | _, [] => []
  | S fuel', _ =>
      firstn batch_size news_list :: batches fuel' (skipn batch_size news_list)
  end.

(** One group: [asyncio.gather] with [return_exceptions=True] yields
    the results in the order of the tasks; a result that is an exception
    is skipped, a result that is true is appended. *)
Fixpoint collect (results : list (py_result analyzed))
  (analyzed_news : list analyzed) : list analyzed :=
  match results with
  | [] => analyzed_news
  | Raised _ :: rest => collect rest analyzed_news
  | Returned result :: rest =>
      collect rest (if analyzed_truthy result
                    then analyzed_news ++ [result] else analyzed_news)
  end.

Definition analyze_news_batch (e : env) (news_list : list news)
  : list analyzed :=
  fold_left (fun analyzed_news batch =>
               collect (map (analyze_single_news e) batch) analyzed_news)
            (batches (List.length news_list) news_list) [].

Module Trend.

(** An entry of [topics]: [{'count', 'category', 'latest_news'}]. *)
Record data : Type := mk_data {
  count : nat;
  category : string;
  latest_news : list analyzed
}.

(** An entry of the result. *)
Record topic_summary : Type := mk_topic {
  topic : string;
  t_count : nat;
  t_category : string;
  t_latest_news : list analyzed
}.

End Trend.

(** [if key not in topics: topics[key] = {'count': 0, 'category': kind,
    'latest_news': []}], then [topics[key]['count'] += 1] and
    [topics[key]['latest_news'].append(news)]. A new key goes to the end
    of the dict, an old one keeps its place. *)
Fixpoint bump (key kind : string) (n : analyzed)
  (topics : list (string * Trend.data)) : list (string * Trend.data) :=
  match topics with
  | [] => [(key, Trend.mk_data 1 kind [n])]
  | (k, d) :: rest =>
      if String.eqb k key
      then (k, Trend.mk_data (S (Trend.count d)) (Trend.category d)
                             (Trend.latest_news d ++ [n])) :: rest
      else (k, d) :: bump key kind n rest
  end.

Definition item_companies (n : analyzed) : list string :=
  match analysis_of n with
  | Some a => companies a
  | None => []
  end.

Definition item_category (n : analyzed) : string :=
  match analysis_of n with
  | Some a => category a
  | None => "general"
  end.

Definition category_key (n : analyzed) : string :=
  "category_" ++ item_category n.

(** One turn of the loop over [news_list]. *)
Definition count_item (topics : list (string * Trend.data)) (n : analyzed)
  : list (string * Trend.data) :=
  let topics :=
    fold_left (fun topics company => bump company "company" n topics)
              (item_companies n) topics in
  bump (category_key n) "topic" n topics.

Definition count_topics (news_list : list analyzed)
  : list (string * Trend.data) :=
  fold_left count_item news_list [].

Definition trending (topics : list (string * Trend.data))
  : list Trend.topic_summary :=
  flat_map (fun entry : string * Trend.data =>
              let (topic, data) := entry in
              if Nat.leb 2 (Trend.count data)
              then [Trend.mk_topic topic (Trend.count data)
                                   (Trend.category data)
                                   (firstn 3 (Trend.latest_news data))]
              else [])
           topics.

Definition get_trending_topics (news_list : list analyzed)
  : list Trend.topic_summary :=
  firstn 10
    (PyList.sorted_desc (fun t => Z.of_nat (Trend.t_count t))
                 (trending (count_topics news_list))).

End NewsAnalyzer.

(* ================================================================= *)
(** ** [class NewsFetcher] *)

Module NewsFetcher.

(** [settings.MAX_NEWS_PER_FETCH] *)
Definition MAX_NEWS_PER_FETCH : nat := 50.

(** [news.get('title', '').lower().strip()] *)
Definition normalized_title (n : news) : string :=
  PyStr.strip (PyStr.lower (get (title n))).

(** The loop of [_deduplicate_news]; the two sets are kept as lists. *)
Fixpoint dedup_loop (news_list : list news)
  (seen_urls seen_titles : list string) (unique_news : list news)
  : list news :=
  match news_list with
  | [] => unique_news
  | n :: rest =>
      let url := get (link n) in
      let title := normalized_title n in
      if (negb (PyStr.mem url seen_urls)
          && negb (PyStr.mem title seen_titles))%bool
      then dedup_loop rest (url :: seen_urls) (title :: seen_titles)
                      (unique_news ++ [n])
      else dedup_loop rest seen_urls seen_titles unique_news
  end.

Definition _deduplicate_news (news_list : list news) : list news :=
  dedup_loop news_list [] [] [].

(** [x.get('published_date', datetime.min)] *)
Definition sort_key (n : news) : datetime :=
  match published_date n with
  | Some d => d
  | None => datetime_min
  end.

Definition is_naive (d : datetime) : bool :=
  match d with Naive _ => true | Aware _ => false end.

Definition micros (d : datetime) : Z :=
  match d with Naive us => us | Aware us => us end.

(** [all_news.sort(key=..., reverse=True)]. Two keys of the same kind
    are ordered by their instant. A naive and an aware key cannot be
    ordered: when the list holds both, the sort has to compare such a
    pair and the [TypeError] leaves [fetch_all_news]. *)
Definition sort_by_date (all_news : list news) : py_result (list news) :=
  if (existsb (fun n => is_naive (sort_key n)) all_news
      && existsb (fun n => negb (is_naive (sort_key n))) all_news)%bool
  then Raised TypeError
  else Returned (PyList.sorted_desc (fun n => micros (sort_key n)) all_news).

(** The loop over the gathered results: an exception is logged and
    skipped, a list that is not empty is appended. *)
Fixpoint merge_results (results : list (py_result (list news)))
  (all_news : list news) : list news :=
  match results with
  | [] => all_news
  | Raised _ :: rest => merge_results rest all_news
  | Returned result :: rest => merge_results rest (all_news ++ result)
  end.

(** [fetch_all_news], given what [_fetch_from_source] returned for each
    source. *)
Definition fetch_all_news (results : list (py_result (list news)))
  : py_result (list news) :=
  let all_news := merge_results results [] in
  let all_news := _deduplicate_news all_news in
  match sort_by_date all_news with
  | Returned all_news => Returned (firstn MAX_NEWS_PER_FETCH all_news)
  | Raised e => Raised e
  end.

(** [settings.AI_KEYWORDS] and [settings.INVESTMENT_KEYWORDS]. *)
Definition AI_KEYWORDS : list string :=
  [ "artificial intelligence"; "AI"; "machine learning"; "ML";
    "deep learning"; "neural network"; "LLM"; "large language model";
    "OpenAI"; "ChatGPT"; "GPT"; "Claude"; "Anthropic"; "Google AI";
    "Microsoft AI"; "artificial general intelligence"; "AGI";
    "computer vision"; "natural language processing"; "NLP";
    "robotics"; "autonomous"; "self-driving" ].

Definition INVESTMENT_KEYWORDS : list string :=
  [ "funding"; "investment"; "venture capital"; "VC"; "Series A";
    "Series B"; "Series C"; "IPO"; "acquisition"; "merger";
    "startup"; "valuation"; "raise"; "round"; "investor";
    "capital"; "equity"; "financing"; "backed"; "led by" ].

(** The first six fields of a [time.struct_time]. *)
Record time_tuple : Type := mk_time {
  tm_year : Z; tm_mon : Z; tm_mday : Z;
  tm_hour : Z; tm_min : Z; tm_sec : Z
}.

(** A feed entry. An attribute the entry does not have is [None]; so
    is a [published_parsed] or [updated_parsed] that is there and false.
    [e_tags] holds the [term] of each tag, [None] for a tag without
    one. *)
Record entry : Type := mk_entry {
  e_title : option string;
  e_link : option string;
  e_summary : option string;
  e_tags : list (option string);
  published_parsed : option time_tuple;
  updated_parsed : option time_tuple
}.

Definition has_term (tag : option string) : bool :=
  match tag with Some _ => true | None => false end.

(** [any(keyword.lower() in content for keyword in keywords)] *)
Definition any_keyword (keywords : list string) (content : string) : bool :=
  existsb (fun keyword => PyStr.contains (PyStr.lower keyword) content)
          keywords.

Definition _is_relevant_news (en : entry) : bool :=
  let title := PyStr.lower (get (e_title en)) in
  let summary := PyStr.lower (get (e_summary en)) in
  let content := (title ++ " " ++ summary)%string in
  let has_ai_keyword := any_keyword AI_KEYWORDS content in
  let has_investment_keyword := any_keyword INVESTMENT_KEYWORDS content in
  (has_ai_keyword && has_investment_keyword)%bool.

Definition is_leap (y : Z) : bool :=
  ((y mod 4 =? 0) && (negb (y mod 100 =? 0) || (y mod 400 =? 0)))%bool%Z.

Definition days_in_month (y m : Z) : Z :=
  if (m =? 2)%Z then (if is_leap y then 29 else 28)
  else if ((m =? 4) || (m =? 6) || (m =? 9) || (m =? 11))%bool%Z then 30
  else 31.

Definition days_before_month (y m : Z) : Z :=
  nth (Z.to_nat (m - 1))
      [0; 31; 59; 90; 120; 151; 181; 212; 243; 273; 304; 334]%Z 0%Z
  + (if ((2 <? m)%Z && is_leap y)%bool then 1 else 0).

Definition days_before_year (y : Z) : Z :=
  ((y - 1) * 365 + (y - 1) / 4 - (y - 1) / 100 + (y - 1) / 400)%Z.

Definition in_range (lo x hi : Z) : bool := ((lo <=? x) && (x <=? hi))%Z.

(** [datetime(y, m, d, H, M, S, tzinfo=timezone.utc)]: the instant in
    microseconds since the epoch, or [None] where the constructor raises
    [ValueError] (a field out of range). *)
Definition utc_datetime (t : time_tuple) : option Z :=
  if (in_range 1%Z (tm_year t) 9999%Z && in_range 1%Z (tm_mon t) 12%Z
      && in_range 1%Z (tm_mday t) (days_in_month (tm_year t) (tm_mon t))
      && in_range 0%Z (tm_hour t) 23%Z && in_range 0%Z (tm_min t) 59%Z
      && in_range 0%Z (tm_sec t) 59%Z)%bool
  then
    let ordinal := (days_before_year (tm_year t)
                    + days_before_month (tm_year t) (tm_mon t)
                    + tm_mday t)%Z in
    Some (((ordinal - 719163) * 86400
           + tm_hour t * 3600 + tm_min t * 60 + tm_sec t) * 1000000)%Z
  else None.

(** [_parse_date]; [now] is [datetime.now(timezone.utc)]. The bare
    [except] turns a constructor that raises into [now]. *)
Definition _parse_date (now : Z) (en : entry) : datetime :=
  match published_parsed en with
  | Some t =>
      match utc_datetime t with Some us => Aware us | None => Aware now end
  | None =>
      match updated_parsed en with
      | Some t =>
          match utc_datetime t with Some us => Aware us | None => Aware now end
      | None => Aware now
      end
  end.

(** [_parse_news_entry]: [fetch] stands for [_fetch_full_content], which
    never raises. Reading [entry.link] raises when the entry has no
    link, reading [tag.term] raises when a tag has no term, and the
    handler returns [None]. Of the keys of the dict the ones the
    analyzer and the fetcher read are kept. *)
Definition _parse_news_entry (now : Z) (fetch : string -> string)
  (source_name : string) (en : entry) : option news :=
  match e_link en with
  | None => None
  | Some entry_link =>
      let full_content := fetch entry_link in
      let published_date := _parse_date now en in
      if forallb has_term (e_tags en)
      then Some (mk_news (Some (get (e_title en))) (Some entry_link)
                         (Some (get (e_summary en))) (Some full_content)
                         (Some source_name) (Some published_date))
      else None
  end.

(** The loop of [_fetch_from_source] over [feed.entries]. *)
Fixpoint relevant_items (now : Z) (fetch : string -> string)
  (source_name : string) (entries : list entry) : list news :=
  match entries with
  | [] => []
  | en :: rest =>
      if _is_relevant_news en
      then match _parse_news_entry now fetch source_name en with
           | Some news_item =>
               news_item :: relevant_items now fetch source_name rest
           | None => relevant_items now fetch source_name rest
           end
      else relevant_items now fetch source_name rest
  end.

(** [_fetch_from_source]: the feed of the source is [None] when
    fetching or parsing it raised, which the handler turns into the
    empty list. *)
Definition _fetch_from_source (now : Z) (fetch : string -> string)
  (source : string * option (list entry)) : list news :=
  match snd source with
  | Some entries => relevant_items now fetch (fst source) entries
  | None => []
  end.

(** One fetch cycle over the sources and their feeds. *)
Definition fetch_cycle (now : Z) (fetch : string -> string)
  (sources : list (string * option (list entry))) : py_result (list news) :=
  fetch_all_news
    (map (fun source => Returned (_fetch_from_source now fetch source))
         sources).

(** The text [search_news_by_keywords] looks at. *)
Definition search_text (n : news) : string :=
  PyStr.lower (get (title n) ++ " " ++ get (summary n) ++ " "
               ++ get (content n)).

(** [search_news_by_keywords], given what [fetch_all_news] returned. *)
Definition search_news_by_keywords (keywords : list string)
  (fetched : py_result (list news)) : py_result (list news) :=
  match fetched with
  | Returned all_news =>
      Returned (filter (fun n => any_keyword keywords (search_text n))
                       all_news)
  | Raised e => Raised e
  end.

End NewsFetcher.

(* ================================================================= *)
(** ** The values a score can take *)

(** A score is a sum of table entries, each entry taken or left out.
    The sums that can arise are few (they cluster on the multiples of
    0.05), so they can be listed and each one examined. *)
Module Reach.

Import PyFloat.

Definition distinct : list float -> list float := nodup float_eq_dec.

(** The values after a step that adds one of [options] or nothing. *)
Definition step (options : list float) (values : list float) : list float :=
  distinct (values ++ flat_map (fun w => map (fun x => add x w) values) options).

Fixpoint sums (table : list (string * float)) (values : list float)
  : list float :=
  match table with
  | [] => values
  | (_, weight) :: rest => sums rest (step [weight] values)
  end.

Definition capped (values : list float) : list float :=
  distinct (map (fun x => min x (lit 10 1)) values).

Definition relevance_values : list float :=
  capped (sums NewsAnalyzer.investment_weights
               (sums NewsAnalyzer.ai_weights [zero])).

Definition importance_values : list float :=
  capped (step [lit 2 1]
            (step [lit 4 1; lit 3 1; lit 2 1]
               (step [lit 3 1]
                  (step [lit 4 1; lit 3 1; lit 2 1; lit 1 1] [zero])))).

(** The sums in which at least one entry was taken: [hit] holds them,
    [values] holds all sums so far. *)
Definition hit_step (weight : float) (values hit : list float) : list float :=
  distinct (hit ++ map (fun x => add x weight) values).

Fixpoint hit_sums (table : list (string * float)) (values hit : list float)
  : list float :=
  match table with
  | [] => hit
  | (_, weight) :: rest =>
      hit_sums rest (step [weight] values) (hit_step weight values hit)
  end.

Definition relevance_hit_values : list float :=
  capped (hit_sums NewsAnalyzer.investment_weights
                   (sums NewsAnalyzer.ai_weights [zero])
                   (hit_sums NewsAnalyzer.ai_weights [zero] [])).

(** The importance sums when the funding amount gave its bonus. *)
Definition importance_funded_values : list float :=
  capped (step [lit 2 1]
            (step [lit 4 1; lit 3 1; lit 2 1]
               (step [lit 3 1]
                  [add zero (lit 4 1); add zero (lit 3 1);
                   add zero (lit 2 1); add zero (lit 1 1)]))).

End Reach.

(* ================================================================= *)
(** ** The operations as the specification words them *)

(** These definitions follow the sentences of the specification, not the
    code; the properties below compare the code with them. *)
Module Spec.

(** "an item is a duplicate if its normalized (lower-cased, trimmed)
    title OR its exact link was already seen in this batch". *)
Definition same_title_or_link (a b : news) : bool :=
  (String.eqb (NewsFetcher.normalized_title a) (NewsFetcher.normalized_title b)
   || String.eqb (get (link a)) (get (link b)))%bool.

(** Deduplication against every earlier item of the batch, kept or not. *)
Fixpoint deduplicate_from (earlier items : list news) : list news :=
  match items with
  | [] => []
  | n :: rest =>
      if existsb (same_title_or_link n) earlier
      then deduplicate_from (earlier ++ [n]) rest
      else n :: deduplicate_from (earlier ++ [n]) rest
  end.

Definition deduplicate (items : list news) : list news :=
  deduplicate_from [] items.






(** [kept] is [items] with some elements left out, the order unchanged. *)
Inductive subsequence {A : Type} : list A -> list A -> Prop :=
| sub_nil : subsequence [] []
| sub_keep (x : A) (kept items : list A) :
    subsequence kept items -> subsequence (x :: kept) (x :: items)
| sub_drop (x : A) (kept items : list A) :
    subsequence kept items -> subsequence kept (x :: items).

(** [x] may stand before [y] in a list that descends by [key]. *)
Definition desc {A : Type} (key : A -> Z) (x y : A) : Prop :=
  (key y <= key x)%Z.


(** Every character of [s] is one of 0..9. *)
Fixpoint all_digits (s : string) : bool :=
  match s with
  | EmptyString => true
  | String c s' => (PyStr.is_digit c && all_digits s')%bool
  end.

(** A (possibly empty) occurrence of [k] in [s]. *)
Definition occurs_in (k s : string) : Prop :=
  exists before after, s = (before ++ k ++ after)%string.

(** No character of [s] is one of A..Z. *)
Fixpoint no_upper (s : string) : bool :=
  match s with
  | EmptyString => true
  | String c s' => (negb (PyStr.is_ascii_upper c) && no_upper s')%bool
  end.

End Spec.

(* ================================================================= *)
(** ** Inputs used in the examples *)

Module Examples.

Import NewsAnalyzer.

(** The scenario sentence, as the analyzer sees it (lowercased). *)
Definition scenario_text : string :=
  "openai raised $100 million in series c funding led by microsoft ventures".

Definition scenario_news : news :=
  mk_news
    (Some "OpenAI raised $100 million in Series C funding led by Microsoft Ventures")
    (Some "https://example.com/openai-funding")
    None None (Some "TechCrunch") None.

(** No API key: the LLM is never asked. *)
Definition local_only : env := mk_env false (fun _ => CallRaised) 0.

(** An LLM whose every reply parses to the object [fields]. *)
Definition llm_object (fields : list (string * json)) : env :=
  mk_env true (fun _ => ParsedObject fields) 0.

(** An LLM whose every call raises. *)
Definition llm_down : env := mk_env true (fun _ => CallRaised) 0.


(** A news item published at [d], or with no date. *)
Definition published (d : option datetime) : news :=
  mk_news (Some "title") (Some "https://example.com/a") None None None d.

(** A raw item with a title and a link. *)
Definition story (t l : string) : news :=
  mk_news (Some t) (Some l) None None None None.

(** Three items: the second has the link of the first, the third has
    the title of the second, up to case and blanks. *)
Definition chained : list news :=
  [ story "Alpha raises a seed round" "https://example.com/a";
    story "Beta goes public" "https://example.com/a";
    story "  BETA goes public " "https://example.com/c" ].

(** What two sources return: three items with aware dates, two of them
    sharing a link. *)
Definition dated_story (t l : string) (us : Z) : news :=
  mk_news (Some t) (Some l) None None None (Some (Aware us)).

Definition two_sources : list (py_result (list news)) :=
  [ Returned [ dated_story "Alpha raises a seed round" "https://example.com/a" 10;
               dated_story "Beta goes public" "https://example.com/b" 30 ];
    Raised OtherError;
    Returned [ dated_story "Alpha seed round" "https://example.com/a" 20;
               dated_story "Gamma acquired" "https://example.com/g" 20 ] ].

(** An LLM whose reply is a JSON object in which [market_impact] is a
    word instead of a number. *)
Definition llm_impact_as_word : env :=
  llm_object [ ("summary", JStr "OpenAI raises a Series C");
               ("market_impact", JStr "high") ].

(** The dict with no key. *)
Definition empty_news : news := mk_news None None None None None None.

(** An analyzed item that names the given companies, published (naive
    date) at [us]. *)
Definition mention (t : string) (us : Z) (cs : list string) (cat : string)
  : analyzed :=
  mk_analyzed
    (mk_news (Some t) (Some t) None None None (Some (Naive us)))
    (Some (mk_analysis PyFloat.zero PyFloat.zero None None cs [] cat "low"
                       (JList []) None None None None None None)).


(** Three items naming OpenAI, one of them naming Mistral as well. *)
Definition three_openai : list analyzed :=
  [ mention "first" 3 ["OpenAI"] "funding";
    mention "second" 2 ["OpenAI"; "Mistral"] "funding";
    mention "third" 1 ["OpenAI"] "ipo" ].

(** Three raw items that mention OpenAI. *)
Definition openai_news : list news :=
  [ story "OpenAI launches a new model" "https://example.com/1";
    story "OpenAI raised new funding" "https://example.com/2";
    story "Microsoft backs OpenAI" "https://example.com/3" ].

(** An LLM that answers with a well-formed object. *)
Definition llm_well_formed : env :=
  llm_object [ ("summary", JStr "OpenAI raises a Series C");
               ("key_points", JList ["Series C"; "led by Microsoft"]);
               ("market_impact", JInt 4);
               ("trend_analysis", JStr "large rounds continue");
               ("risk_assessment", JStr "valuation risk") ].

(** A text with capitals, as [_extract_companies] would see it if it
    were called on raw text. *)
Definition capitalized_text : string :=
  "Acme Robotics raised money; investors include Sequoia Capital".

End Examples.


(** The item carries a timezone-aware [published_date]. *)
Definition has_aware_date (n : news) : bool :=
  match published_date n with
  | Some (Aware _) => true
  | _ => false
  end.

(* ================================================================= *)
(** ** Loops as folds *)

(** The loops of the code, restated as folds over their state; the
    properties are proved on these and carried over. *)
Module Loop.

(** The state of [_deduplicate_news]: [seen_urls], [seen_titles],
    [unique_news]. *)
Definition dedup_state : Type :=
  (list string * list string * list news)%type.

Definition dedup_step (st : dedup_state) (n : news) : dedup_state :=
  let '(seen_urls, seen_titles, unique_news) := st in
  if (negb (PyStr.mem (get (link n)) seen_urls)
      && negb (PyStr.mem (NewsFetcher.normalized_title n) seen_titles))%bool
  then (get (link n) :: seen_urls,
        NewsFetcher.normalized_title n :: seen_titles,
        unique_news ++ [n])
  else st.

(** The seen sets hold exactly the links and titles of the kept items. *)
Definition coherent (st : dedup_state) : Prop :=
  let '(seen_urls, seen_titles, unique_news) := st in
  (forall x, PyStr.mem x seen_urls
             = existsb (fun k => String.eqb x (get (link k))) unique_news)
  /\ (forall x, PyStr.mem x seen_titles
                = existsb (fun k => String.eqb x (NewsFetcher.normalized_title k))
                          unique_news).

(** What one gathered result adds to [analyzed_news]. *)
Definition kept_result (r : py_result analyzed) : list analyzed :=
  match r with
  | Returned result =>
      if NewsAnalyzer.analyzed_truthy result then [result] else []
  | Raised _ => []
  end.




End Loop.

(* ================================================================= *)
(** * Properties *)

Import PyFloat.
Import NewsAnalyzer.

(* ----------------------------------------------------------------- *)
(** ** Strings *)

Lemma prefix_occurs (k s : string) :
  prefix k s = true <-> exists after, s = (k ++ after)%string.
Proof.
  revert s; induction k as [|c k IH]; intros s.
  - split; [intros _; exists s; reflexivity | now destruct s].
  - destruct s as [|d s]; simpl.
    + split; [discriminate | intros [after H]; discriminate].
    + destruct (ascii_dec c d) as [->|ne].
      * rewrite IH. split; intros [after H]; exists after.
        -- now rewrite H.
        -- now inversion H.
      * split; [discriminate|].
        intros [after H]. inversion H. congruence.
Qed.

Lemma contains_occurs (k s : string) :
  PyStr.contains k s = true <-> Spec.occurs_in k s.
Proof.
  unfold Spec.occurs_in.
  induction s as [|c s IH].
  - change (PyStr.contains k EmptyString)
      with (prefix k EmptyString || false)%bool.
    rewrite orb_false_r, prefix_occurs. split.
    + intros [after H]. exists EmptyString, after. exact H.
    + intros [before [after H]]. destruct before as [|b before].
      * exists after. exact H.
      * discriminate.
  - change (PyStr.contains k (String c s))
      with (prefix k (String c s) || PyStr.contains k s)%bool.
    rewrite orb_true_iff, prefix_occurs, IH. split.
    + intros [[after H]|[before [after H]]].
      * exists EmptyString, after. exact H.
      * exists (String c before), after. simpl. now rewrite H.
    + intros [before [after H]]. destruct before as [|b before].
      * left. exists after. exact H.
      * right. exists before, after. simpl in H. now inversion H.
Qed.

Lemma contains_false_occurs (k s : string) :
  PyStr.contains k s = false <-> ~ Spec.occurs_in k s.
Proof.
  rewrite <- contains_occurs. destruct (PyStr.contains k s); split;
    congruence.
Qed.

Lemma mem_In (x : string) (l : list string) :
  PyStr.mem x l = true <-> In x l.
Proof.
  unfold PyStr.mem. rewrite existsb_exists. split.
  - intros [y [Hy E]]. apply String.eqb_eq in E. now subst.
  - intros H. exists x. split; [exact H | apply String.eqb_refl].
Qed.

(* ----------------------------------------------------------------- *)
(** ** The funding round *)

Section FirstRound.

Variable text : string.

Lemma first_round_some (rounds : list string) (r : string) :
  first_round rounds text = Some r <->
  exists earlier later,
    rounds = earlier ++ r :: later
    /\ PyStr.contains r text = true
    /\ forall r', In r' earlier -> PyStr.contains r' text = false.
Proof.
  induction rounds as [|x rounds IH]; simpl.
  - split; [discriminate|]. intros [[|? ?] [later [H _]]]; discriminate.
  - destruct (PyStr.contains x text) eqn:Hx.
    + split.
      * intros H. injection H as ->. exists [], rounds. simpl. tauto.
      * intros [[|y earlier] [later [H [Hr Hearlier]]]].
        -- simpl in H. now inversion H.
        -- simpl in H. inversion H. subst y.
           rewrite (Hearlier x (or_introl eq_refl)) in Hx. discriminate.
    + rewrite IH. split.
      * intros [earlier [later [H [Hr Hearlier]]]].
        exists (x :: earlier), later. subst rounds. simpl.
        repeat split; trivial. intros r' [<-|Hin]; auto.
      * intros [[|y earlier] [later [H [Hr Hearlier]]]].
        -- simpl in H. inversion H. subst x. congruence.
        -- simpl in H. inversion H. subst y rounds.
           exists earlier, later. repeat split; trivial.
           intros r' Hin. apply Hearlier. now right.
Qed.

Lemma first_round_none (rounds : list string) :
  first_round rounds text = None <->
  forall r, In r rounds -> PyStr.contains r text = false.
Proof.
  induction rounds as [|x rounds IH]; simpl.
  - split; [intros _ r []| reflexivity].
  - destruct (PyStr.contains x text) eqn:Hx.
    + split; [discriminate|]. intros H.
      rewrite (H x (or_introl eq_refl)) in Hx. discriminate.
    + rewrite IH. split.
      * intros H r [<-|Hin]; auto.
      * intros H r Hin. apply H. now right.
Qed.

End FirstRound.

(** C7. [_extract_funding_round] returns the first entry of
    [funding_rounds], in the order of that list, that occurs in the text
    as a substring, and [None] exactly when no entry occurs. So the
    result is always an entry of the fixed list or [None]; an entry that
    does not occur in the text is never returned, in particular not
    "series a" for the text "series"; and the order of the list decides,
    not the position in the text: "seed" wins over an earlier
    "series a". *)
Theorem extract_funding_round_first_in_list_order :
  forall text : string,
    (forall r, _extract_funding_round text = Some r <->
       exists earlier later,
         funding_rounds = earlier ++ r :: later
         /\ Spec.occurs_in r text
         /\ forall r', In r' earlier -> ~ Spec.occurs_in r' text)
    /\ (_extract_funding_round text = None <->
        forall r, In r funding_rounds -> ~ Spec.occurs_in r text)
    /\ (forall r, _extract_funding_round text = Some r ->
          In r funding_rounds /\ Spec.occurs_in r text)
    /\ (~ Spec.occurs_in "series a" text ->
        _extract_funding_round text <> Some "series a")
    /\ _extract_funding_round "series" = None
    /\ _extract_funding_round "a series a round after the seed round"
       = Some "seed".
Proof.
  intros text.
  assert (Hsome : forall r, _extract_funding_round text = Some r <->
       exists earlier later,
         funding_rounds = earlier ++ r :: later
         /\ Spec.occurs_in r text
         /\ forall r', In r' earlier -> ~ Spec.occurs_in r' text).
  { intros r. unfold _extract_funding_round. rewrite first_round_some.
    split; intros [earlier [later [H [Hr Hearlier]]]];
      exists earlier, later; repeat split; trivial.
    - now apply contains_occurs.
    - intros r' Hin. apply contains_false_occurs. auto.
    - now apply contains_occurs.
    - intros r' Hin. apply contains_false_occurs. auto. }
  assert (Hin : forall r, _extract_funding_round text = Some r ->
          In r funding_rounds /\ Spec.occurs_in r text).
  { intros r H. apply Hsome in H.
    destruct H as [earlier [later [H [Hr _]]]]. split; trivial.
    rewrite H. apply in_or_app. right. now left. }
  repeat split.
  - apply Hsome.
  - apply Hsome.
  - unfold _extract_funding_round. rewrite first_round_none.
    intros H r Hr. apply contains_false_occurs. auto.
  - unfold _extract_funding_round. rewrite first_round_none.
    intros H r Hr. apply contains_false_occurs. auto.
  - apply Hin. assumption.
  - apply Hin. assumption.
  - intros Hno H. apply Hin in H. tauto.
Qed.

(* ----------------------------------------------------------------- *)
(** ** The two scores lie in the unit interval *)

Lemma step_keep (options values : list float) (x : float) :
  In x values -> In x (Reach.step options values).
Proof.
  intros H. unfold Reach.step, Reach.distinct. apply nodup_In.
  apply in_or_app. now left.
Qed.

Lemma step_add (options values : list float) (x w : float) :
  In x values -> In w options -> In (add x w) (Reach.step options values).
Proof.
  intros Hx Hw. unfold Reach.step, Reach.distinct. apply nodup_In.
  apply in_or_app. right. apply in_flat_map. exists w. split; trivial.
  apply in_map_iff. exists x. split; trivial.
Qed.

Lemma capped_In (values : list float) (x : float) :
  In x values -> In (min x (lit 10 1)) (Reach.capped values).
Proof.
  intros H. unfold Reach.capped, Reach.distinct. apply nodup_In.
  apply in_map_iff. exists x. split; trivial.
Qed.

Lemma sums_reach (text : string) (table : list (string * float)) :
  forall (values : list float) (score : float),
    In score values ->
    In (add_weights table text score) (Reach.sums table values).
Proof.
  induction table as [|[keyword weight] table IH]; intros values score H.
  - exact H.
  - simpl. apply IH. destruct (PyStr.contains keyword text).
    + apply step_add; [exact H | now left].
    + apply step_keep. exact H.
Qed.

Lemma relevance_reach (text : string) :
  In (_calculate_relevance_score text) Reach.relevance_values.
Proof.
  unfold _calculate_relevance_score, Reach.relevance_values.
  apply capped_In. apply sums_reach. apply sums_reach. now left.
Qed.

Lemma step_if (b : bool) (w s : float) (values : list float) :
  In s values ->
  In (if b then add s w else s) (Reach.step [w] values).
Proof.
  intros H. destruct b; [apply step_add; simpl; tauto | now apply step_keep].
Qed.

Lemma step_if3 (b1 b2 b3 : bool) (w1 w2 w3 s : float)
  (values : list float) :
  In s values ->
  In (if b1 then add s w1
      else if b2 then add s w2 else if b3 then add s w3 else s)
     (Reach.step [w1; w2; w3] values).
Proof.
  intros H. destruct b1; [apply step_add; simpl; tauto|].
  destruct b2; [apply step_add; simpl; tauto|].
  destruct b3; [apply step_add; simpl; tauto | now apply step_keep].
Qed.

Lemma importance_reach (a : analysis) (text : string) :
  In (_calculate_importance_score a text) Reach.importance_values.
Proof.
  unfold _calculate_importance_score, Reach.importance_values.
  apply capped_In. cbv zeta beta.
  apply step_if. apply step_if3. apply step_if.
  destruct (PyStr.truthy (funding_amount a));
    [|apply step_keep; now left].
  destruct (of_string (get (funding_amount a))) as [amount|];
    [|apply step_keep; now left].
  destruct (PyStr.contains "billion" text
            || PyStr.contains "b" (get (funding_amount a)))%bool;
    [apply step_add; simpl; tauto|].
  destruct (geb amount (of_int 100)); [apply step_add; simpl; tauto|].
  destruct (geb amount (of_int 50)); apply step_add; simpl; tauto.
Qed.

Lemma relevance_values_in_unit :
  forallb in_unit Reach.relevance_values = true.
Proof. vm_compute. reflexivity. Qed.

Lemma importance_values_in_unit :
  forallb in_unit Reach.importance_values = true.
Proof. vm_compute. reflexivity. Qed.

(** C1. For every text, and for every analysis dict handed to the
    importance computation, [_calculate_relevance_score] and
    [_calculate_importance_score] return a float [x] with
    [0.0 <= x <= 1.0]. *)
Theorem scores_in_unit_interval :
  forall (text : string) (a : analysis),
    in_unit (_calculate_relevance_score text) = true
    /\ in_unit (_calculate_importance_score a text) = true.
Proof.
  intros text a. split.
  - exact (proj1 (forallb_forall _ _) relevance_values_in_unit _
                 (relevance_reach text)).
  - exact (proj1 (forallb_forall _ _) importance_values_in_unit _
                 (importance_reach a text)).
Qed.

(* ----------------------------------------------------------------- *)
(** ** Urgency *)



(* ----------------------------------------------------------------- *)
(** ** The funding scenario *)

(** C5. On the scenario sentence, lowercased as the analyzer does, the
    amount is "100", the round is "series c", the companies include
    "Openai", the category is "funding" and the importance score, which
    comes out as 1.0, is at least 0.5. The same values are what
    [_basic_analysis] stores for a news item whose title is the
    sentence. *)
Theorem openai_series_c_scenario :
  let text := Examples.scenario_text in
  PyStr.lower (get (title Examples.scenario_news)) = text
  /\ _extract_funding_amount text = Some "100"
  /\ _extract_funding_round text = Some "series c"
  /\ In "Openai" (_extract_companies text)
  /\ _categorize_news text = "funding"
  /\ geb (_calculate_importance_score (extracted text) text) (lit 5 1) = true
  /\ _calculate_importance_score (extracted text) text = one
  /\ exists a,
       _basic_analysis 0 Examples.scenario_news = Returned a
       /\ funding_amount a = Some "100"
       /\ funding_round a = Some "series c"
       /\ In "Openai" (companies a)
       /\ category a = "funding"
       /\ geb (importance_score a) (lit 5 1) = true.
Proof.
  cbv zeta. repeat split; try (vm_compute; reflexivity).
  - vm_compute. tauto.
  - eexists. split; [vm_compute; reflexivity|].
    repeat split; try reflexivity. simpl. tauto.
Qed.

(* ----------------------------------------------------------------- *)
(** ** The overall score *)

Lemma Returned_inj {A : Type} (x y : A) : Returned x = Returned y -> x = y.
Proof. intros H. now injection H. Qed.

Lemma Some_inj {A : Type} (x y : A) : Some x = Some y -> x = y.
Proof. intros H. now injection H. Qed.







(* ----------------------------------------------------------------- *)
(** ** Deduplication *)

Import NewsFetcher.

Lemma dedup_loop_fold (news_list : list news) :
  forall seen_urls seen_titles unique_news,
    dedup_loop news_list seen_urls seen_titles unique_news
    = snd (fold_left Loop.dedup_step news_list
                     (seen_urls, seen_titles, unique_news)).
Proof.
  induction news_list as [|n rest IH]; intros su st u; simpl.
  - reflexivity.
  - destruct (negb (PyStr.mem (get (link n)) su)
              && negb (PyStr.mem (normalized_title n) st))%bool;
      apply IH.
Qed.

Lemma existsb_snoc {A : Type} (f : A -> bool) (l : list A) (x : A) :
  existsb f (l ++ [x]) = (existsb f l || f x)%bool.
Proof. rewrite existsb_app. simpl. now rewrite orb_false_r. Qed.

Lemma dedup_step_coherent (st : Loop.dedup_state) (n : news) :
  Loop.coherent st -> Loop.coherent (Loop.dedup_step st n).
Proof.
  destruct st as [[su st] u]. intros [Hu Ht]. unfold Loop.dedup_step.
  destruct (negb (PyStr.mem (get (link n)) su)
            && negb (PyStr.mem (normalized_title n) st))%bool.
  - split; intros x; rewrite existsb_snoc.
    + unfold PyStr.mem in *. simpl. rewrite <- Hu. apply orb_comm.
    + unfold PyStr.mem in *. simpl. rewrite <- Ht. apply orb_comm.
  - now split.
Qed.

Lemma dedup_fold_coherent (news_list : list news) :
  forall st, Loop.coherent st ->
             Loop.coherent (fold_left Loop.dedup_step news_list st).
Proof.
  induction news_list as [|n rest IH]; intros st H; simpl.
  - exact H.
  - apply IH. now apply dedup_step_coherent.
Qed.

Lemma same_title_or_link_split (n : news) (kept : list news) :
  existsb (Spec.same_title_or_link n) kept
  = (existsb (fun k => String.eqb (get (link n)) (get (link k))) kept
     || existsb (fun k => String.eqb (normalized_title n) (normalized_title k))
                kept)%bool.
Proof.
  induction kept as [|k kept IH]; simpl.
  - reflexivity.
  - rewrite IH. unfold Spec.same_title_or_link.
    destruct (String.eqb (normalized_title n) (normalized_title k));
      destruct (String.eqb (get (link n)) (get (link k)));
      simpl; rewrite ?orb_true_r; reflexivity.
Qed.

(** The loop, read from the end of the list: the last item is kept
    exactly when no kept item before it has its link or its title. *)
Lemma deduplicate_snoc (news_list : list news) (n : news) :
  _deduplicate_news (news_list ++ [n])
  = if existsb (Spec.same_title_or_link n) (_deduplicate_news news_list)
    then _deduplicate_news news_list
    else _deduplicate_news news_list ++ [n].
Proof.
  unfold _deduplicate_news. rewrite !dedup_loop_fold, fold_left_app.
  assert (H : Loop.coherent (fold_left Loop.dedup_step news_list ([], [], [])))
    by (apply dedup_fold_coherent; now split).
  destruct (fold_left Loop.dedup_step news_list ([], [], []))
    as [[su st] u].
  destruct H as [Hu Ht]. simpl.
  rewrite same_title_or_link_split, Hu, Ht.
  destruct (existsb (fun k => String.eqb (get (link n)) (get (link k))) u);
    destruct (existsb (fun k => String.eqb (normalized_title n)
                                           (normalized_title k)) u);
    reflexivity.
Qed.

Lemma subsequence_refl {A : Type} (l : list A) : Spec.subsequence l l.
Proof. induction l; constructor; assumption. Qed.

Lemma subsequence_app {A : Type} (k1 l1 k2 l2 : list A) :
  Spec.subsequence k1 l1 -> Spec.subsequence k2 l2 ->
  Spec.subsequence (k1 ++ k2) (l1 ++ l2).
Proof.
  intros H1 H2. induction H1; simpl; try constructor; assumption.
Qed.

Lemma deduplicate_subsequence (news_list : list news) :
  Spec.subsequence (_deduplicate_news news_list) news_list.
Proof.
  induction news_list as [|n l IH] using rev_ind.
  - constructor.
  - rewrite deduplicate_snoc.
    destruct (existsb _ (_deduplicate_news l)).
    + rewrite <- (app_nil_r (_deduplicate_news l)).
      apply subsequence_app; [exact IH | repeat constructor].
    + apply subsequence_app; [exact IH | apply subsequence_refl].
Qed.

(** C4, as stated, fails. In [Examples.chained] the third item has the
    (normalized) title of the second, which was seen earlier in the
    batch; yet it is kept, because the second item was dropped for its
    link before its title was recorded. Deduplication against all
    earlier items keeps the first item only. *)
Lemma deduplicate_not_against_all_earlier :
  _deduplicate_news Examples.chained
  = [ Examples.story "Alpha raises a seed round" "https://example.com/a";
      Examples.story "  BETA goes public " "https://example.com/c" ]
  /\ Spec.deduplicate Examples.chained
     = [ Examples.story "Alpha raises a seed round" "https://example.com/a" ]
  /\ _deduplicate_news Examples.chained <> Spec.deduplicate Examples.chained.
Proof.
  split; [vm_compute; reflexivity|]. split; [vm_compute; reflexivity|].
  vm_compute. discriminate.
Qed.

(** C4, amended. [_deduplicate_news] keeps the items in their input
    order and drops exactly the items whose normalized title or exact
    link is that of an item kept before them: an item only counts as
    seen once it has been kept. In particular, of two items with the
    same link exactly one survives, the first. *)
Theorem deduplicate_against_kept_items :
  _deduplicate_news [] = []
  /\ (forall (news_list : list news) (n : news),
        _deduplicate_news (news_list ++ [n])
        = if existsb (Spec.same_title_or_link n) (_deduplicate_news news_list)
          then _deduplicate_news news_list
          else _deduplicate_news news_list ++ [n])
  /\ (forall news_list : list news,
        Spec.subsequence (_deduplicate_news news_list) news_list)
  /\ (forall a b : news,
        get (link a) = get (link b) -> _deduplicate_news [a; b] = [a]).
Proof.
  split; [reflexivity|]. split; [exact deduplicate_snoc|].
  split; [exact deduplicate_subsequence|].
  intros a b H.
  change [a; b] with (([] ++ [a]) ++ [b]).
  rewrite deduplicate_snoc, deduplicate_snoc. simpl.
  unfold Spec.same_title_or_link. rewrite H, String.eqb_refl.
  now rewrite orb_true_r.
Qed.

(* ----------------------------------------------------------------- *)
(** ** Sorting in descending order *)

Section SortedDesc.

Context {A : Type}.
Variable key : A -> Z.

Lemma insert_desc_perm (x : A) (l : list A) :
  Permutation (PyList.insert_desc key x l) (x :: l).
Proof.
  induction l as [|y l IH]; simpl.
  - apply Permutation_refl.
  - destruct (key x <? key y)%Z.
    + apply perm_trans with (y :: x :: l).
      * now apply perm_skip.
      * apply perm_swap.
    + apply Permutation_refl.
Qed.

Lemma sorted_desc_perm (l : list A) :
  Permutation (PyList.sorted_desc key l) l.
Proof.
  induction l as [|x l IH]; simpl.
  - apply perm_nil.
  - apply perm_trans with (x :: PyList.sorted_desc key l).
    + apply insert_desc_perm.
    + now apply perm_skip.
Qed.


Lemma sorted_desc_In (l : list A) (x : A) :
  In x (PyList.sorted_desc key l) <-> In x l.
Proof.
  split; apply Permutation_in.
  - apply sorted_desc_perm.
  - apply Permutation_sym, sorted_desc_perm.
Qed.

Lemma insert_desc_sorted (x : A) (l : list A) :
  StronglySorted (Spec.desc key) l -> StronglySorted (Spec.desc key) (PyList.insert_desc key x l).
Proof.
  induction l as [|y l IH]; intros H; simpl.
  - repeat constructor.
  - inversion H as [|? ? Hl Hy]; subst.
    destruct (key x <? key y)%Z eqn:E.
    + constructor; [now apply IH|].
      apply Forall_forall. intros z Hz.
      apply (Permutation_in _ (insert_desc_perm x l)) in Hz.
      destruct Hz as [<-|Hz].
      * unfold Spec.desc. apply Z.ltb_lt in E. lia.
      * rewrite Forall_forall in Hy. now apply Hy.
    + apply Z.ltb_ge in E. constructor; [exact H|].
      constructor; [exact E|].
      apply Forall_forall. intros z Hz. rewrite Forall_forall in Hy.
      specialize (Hy z Hz). unfold Spec.desc in *. lia.
Qed.

Lemma sorted_desc_sorted (l : list A) :
  StronglySorted (Spec.desc key) (PyList.sorted_desc key l).
Proof.
  induction l as [|x l IH]; simpl.
  - constructor.
  - now apply insert_desc_sorted.
Qed.




Lemma firstn_sorted (n : nat) (l : list A) :
  StronglySorted (Spec.desc key) l -> StronglySorted (Spec.desc key) (firstn n l).
Proof.
  revert l; induction n as [|n IH]; intros l H.
  - constructor.
  - destruct l as [|z l]; [constructor|].
    inversion H as [|? ? Hl Hz]; subst. simpl.
    constructor; [now apply IH|].
    apply Forall_forall. intros y Hy. rewrite Forall_forall in Hz.
    apply Hz. rewrite <- (firstn_skipn n l). apply in_or_app. now left.
Qed.

End SortedDesc.

(* ----------------------------------------------------------------- *)
(** ** The fetch cycle *)

Lemma merge_results_In (results : list (py_result (list news))) :
  forall (all_news : list news) (n : news),
    In n (merge_results results all_news) ->
    In n all_news
    \/ exists items, In (Returned items) results /\ In n items.
Proof.
  induction results as [|[items|x] results IH]; intros all_news n H.
  - now left.
  - simpl in H. apply IH in H. destruct H as [H|[items' [H1 H2]]].
    + apply in_app_or in H. destruct H as [H|H]; [now left|].
      right. exists items. split; [now left | exact H].
    + right. exists items'. split; [now right | exact H2].
  - simpl in H. apply IH in H. destruct H as [H|[items' [H1 H2]]].
    + now left.
    + right. exists items'. split; [now right | exact H2].
Qed.

Lemma subsequence_In {A : Type} (kept items : list A) (x : A) :
  Spec.subsequence kept items -> In x kept -> In x items.
Proof.
  intros H. induction H; simpl; intuition.
Qed.

Lemma existsb_false_all {A : Type} (f : A -> bool) (l : list A) :
  (forall x, In x l -> f x = false) -> existsb f l = false.
Proof.
  intros H. induction l as [|x l IH]; simpl; [reflexivity|].
  rewrite (H x (or_introl eq_refl)). apply IH.
  intros y Hy. apply H. now right.
Qed.


(** The fetch cycle on [Examples.two_sources]: the failed source is
    skipped, the second item with the link of the first is dropped, and
    the rest comes newest first. *)
Lemma fetch_all_news_two_sources :
  fetch_all_news Examples.two_sources
  = Returned
      [ Examples.dated_story "Beta goes public" "https://example.com/b" 30;
        Examples.dated_story "Gamma acquired" "https://example.com/g" 20;
        Examples.dated_story "Alpha raises a seed round"
                             "https://example.com/a" 10 ].
Proof. vm_compute. reflexivity. Qed.

(* ----------------------------------------------------------------- *)
(** ** Company names in lowercased text *)

Import Regex.







Lemma known_companies_In (table : list string) (text c : string) :
  In c (known_companies table text) <->
  exists k, In k table /\ Spec.occurs_in k text /\ c = PyStr.title k.
Proof.
  induction table as [|k table IH]; simpl.
  - split; [intros [] | intros [k [[] _]]].
  - destruct (PyStr.contains k text) eqn:E.
    + simpl. rewrite IH. split.
      * intros [<-|[k' [H1 [H2 H3]]]].
        -- exists k. repeat split; [now left | now apply contains_occurs].
        -- exists k'. repeat split; trivial. now right.
      * intros [k' [[<-|H1] [H2 H3]]].
        -- now left.
        -- right. exists k'. now repeat split.
    + rewrite IH. split.
      * intros [k' [H1 [H2 H3]]]. exists k'. repeat split; trivial.
        now right.
      * intros [k' [[<-|H1] [H2 H3]]].
        -- apply contains_occurs in H2. congruence.
        -- exists k'. now repeat split.
Qed.



Lemma lower_char_not_upper (c : ascii) :
  PyStr.is_ascii_upper (PyStr.lower_char c) = false.
Proof.
  destruct c as [[] [] [] [] [] [] [] []]; reflexivity.
Qed.

Lemma no_upper_app (s t : string) :
  Spec.no_upper (s ++ t) = (Spec.no_upper s && Spec.no_upper t)%bool.
Proof.
  induction s as [|c s IH]; simpl; [reflexivity|].
  now rewrite IH, andb_assoc.
Qed.

Lemma lower_no_upper (s : string) : Spec.no_upper (PyStr.lower s) = true.
Proof.
  unfold PyStr.lower. induction s as [|c s IH]; simpl; [reflexivity|].
  now rewrite lower_char_not_upper, IH.
Qed.

(** The text [_basic_analysis] hands to the extractors never holds one
    of the letters A..Z. *)
Lemma full_text_no_upper (n : news) : Spec.no_upper (full_text n) = true.
Proof.
  unfold full_text. rewrite !no_upper_app, !lower_no_upper. reflexivity.
Qed.

(* ----------------------------------------------------------------- *)
(** ** The batch analyzer *)

Lemma batches_concat (fuel : nat) :
  forall news_list : list news,
    List.length news_list <= fuel ->
    List.concat (batches fuel news_list) = news_list.
Proof.
  induction fuel as [|fuel IH]; intros [|n l] H; try reflexivity.
  - simpl in H. lia.
  - cbn [batches List.concat]. rewrite IH.
    + apply firstn_skipn.
    + rewrite length_skipn. simpl in *. unfold batch_size. lia.
Qed.

Lemma collect_app (results : list (py_result analyzed)) :
  forall analyzed_news,
    collect results analyzed_news
    = analyzed_news ++ flat_map Loop.kept_result results.
Proof.
  induction results as [|[r|x] results IH]; intros acc; simpl.
  - now rewrite app_nil_r.
  - rewrite IH. destruct (analyzed_truthy r); simpl; [|reflexivity].
    now rewrite <- app_assoc.
  - apply IH.
Qed.

Lemma fold_collect (e : env) (groups : list (list news)) :
  forall analyzed_news,
    fold_left (fun analyzed_news batch =>
                 collect (map (analyze_single_news e) batch) analyzed_news)
              groups analyzed_news
    = analyzed_news
      ++ flat_map Loop.kept_result
                  (map (analyze_single_news e) (List.concat groups)).
Proof.
  induction groups as [|g groups IH]; intros acc; simpl.
  - now rewrite app_nil_r.
  - rewrite IH, collect_app, map_app, flat_map_app. now rewrite app_assoc.
Qed.

(** The groups of five do not show in the result: each item adds its
    own outcome, in input order. *)
Lemma analyze_news_batch_itemwise (e : env) (news_list : list news) :
  analyze_news_batch e news_list
  = flat_map (fun n => Loop.kept_result (analyze_single_news e n)) news_list.
Proof.
  unfold analyze_news_batch. rewrite fold_collect, batches_concat by lia.
  simpl. now rewrite flat_map_concat_map, map_map, <- flat_map_concat_map.
Qed.

(** No item can abort another: the result for a list is the result for
    its parts, put together. *)
Lemma analyze_news_batch_app (e : env) (l1 l2 : list news) :
  analyze_news_batch e (l1 ++ l2)
  = analyze_news_batch e l1 ++ analyze_news_batch e l2.
Proof. rewrite !analyze_news_batch_itemwise. apply flat_map_app. Qed.

(** [analyze_single_news] never raises: it returns the item, with or
    without an analysis. *)
Lemma analyze_single_news_returns (e : env) (n : news) :
  exists r, analyze_single_news e n = Returned r /\ item r = n.
Proof.
  unfold analyze_single_news.
  destruct (_basic_analysis (utcnow e) n); [|now eexists].
  destruct (_calculate_overall_score _); now eexists.
Qed.

(** When the LLM call itself raises, the item keeps its local scoring. *)
Lemma llm_call_failure_degrades :
  exists a,
    analyze_news_batch Examples.llm_down [Examples.scenario_news]
    = [mk_analyzed Examples.scenario_news (Some a)]
    /\ market_impact a = None
    /\ ai_summary a = None
    /\ relevance_score a = one
    /\ category a = "funding".
Proof.
  eexists. split; [vm_compute; reflexivity|]. repeat split.
Qed.

(** C8 fails on the code. The LLM reply parses, but gives
    [market_impact] as a word: [_ai_analysis] accepts it, the division
    in [_calculate_overall_score] raises [TypeError], and the handler of
    [analyze_single_news] returns the bare item. The local scoring had
    succeeded and is lost; when the item is the empty dict it is not
    returned at all. The same loss befalls an item whose date is aware,
    as every fetched date is, with no LLM involved. *)
Theorem enrichment_failure_discards_local_scoring :
  (exists a, _basic_analysis 0 Examples.scenario_news = Returned a
             /\ importance_score a = one)
  /\ analyze_news_batch Examples.llm_impact_as_word [Examples.scenario_news]
     = [mk_analyzed Examples.scenario_news None]
  /\ analyze_news_batch Examples.llm_impact_as_word [Examples.empty_news]
     = []
  /\ analyze_news_batch Examples.local_only
       [Examples.dated_story "OpenAI raises $100 million"
                             "https://example.com/o" 0]
     = [mk_analyzed (Examples.dated_story "OpenAI raises $100 million"
                                          "https://example.com/o" 0)
                    None].
Proof.
  split; [eexists; split; vm_compute; reflexivity|].
  repeat split; vm_compute; reflexivity.
Qed.

(* ----------------------------------------------------------------- *)
(** ** Trending topics *)

Section Bump.

Variables (key kind : string) (n : analyzed).







End Bump.





















(** The topics of [Examples.three_openai]: OpenAI with count 3, the
    category key of the two funding items with count 2; Mistral, named
    once, is left out. *)
Lemma trending_three_openai :
  map (fun t => (Trend.topic t, Trend.t_count t, Trend.t_category t))
      (get_trending_topics Examples.three_openai)
  = [ ("OpenAI", 3, "company"); ("category_funding", 2, "topic") ].
Proof. vm_compute. reflexivity. Qed.

(** When the company names come from [_extract_companies], they are
    title-cased: three raw items that mention OpenAI give the topic
    "Openai". *)
Lemma trending_names_come_title_cased :
  map (fun t => (Trend.topic t, Trend.t_count t))
      (get_trending_topics
         (analyze_news_batch Examples.local_only Examples.openai_news))
  = [ ("Openai", 3) ].
Proof. vm_compute. reflexivity. Qed.

(* ================================================================= *)
(** * Further properties of the fetcher and the analyzer *)

(* ----------------------------------------------------------------- *)
(** ** What deduplication guarantees *)

Lemma NoDup_snoc {A : Type} (l : list A) (x : A) :
  NoDup (l ++ [x]) <-> NoDup l /\ ~ In x l.
Proof.
  split.
  - intros H. apply NoDup_remove in H. now rewrite app_nil_r in H.
  - intros [H1 H2]. apply NoDup_app; try assumption.
    + constructor; [intros []|constructor].
    + intros y Hy [<-|[]]. contradiction.
Qed.

Lemma not_same_title_or_link (n : news) (kept : list news) :
  existsb (Spec.same_title_or_link n) kept = false <->
  ~ In (get (link n)) (map (fun k => get (link k)) kept)
  /\ ~ In (normalized_title n) (map normalized_title kept).
Proof.
  induction kept as [|k kept IH]; simpl.
  - tauto.
  - rewrite orb_false_iff, IH. unfold Spec.same_title_or_link.
    rewrite orb_false_iff, !String.eqb_neq. intuition congruence.
Qed.

(** X1. The items [_deduplicate_news] returns differ pairwise in their
    link and in their normalized title. *)
Theorem deduplicate_links_and_titles_distinct :
  forall news_list : list news,
    NoDup (map (fun n => get (link n)) (_deduplicate_news news_list))
    /\ NoDup (map normalized_title (_deduplicate_news news_list)).
Proof.
  induction news_list as [|n l IH] using rev_ind.
  - split; constructor.
  - rewrite deduplicate_snoc.
    destruct (existsb _ (_deduplicate_news l)) eqn:E; [exact IH|].
    apply not_same_title_or_link in E. destruct E as [E1 E2].
    rewrite !map_app. cbn [map]. rewrite !NoDup_snoc. tauto.
Qed.

(** A list whose links and titles are pairwise distinct is left as it
    is. *)
Lemma deduplicate_clean (kept : list news) :
  NoDup (map (fun n => get (link n)) kept) ->
  NoDup (map normalized_title kept) ->
  _deduplicate_news kept = kept.
Proof.
  induction kept as [|n l IH] using rev_ind; intros H1 H2.
  - reflexivity.
  - rewrite map_app in H1, H2. cbn [map] in H1, H2.
    apply NoDup_snoc in H1. apply NoDup_snoc in H2.
    rewrite deduplicate_snoc, IH by tauto.
    now rewrite (proj2 (not_same_title_or_link n l)) by tauto.
Qed.

(** X2. Deduplication is idempotent: deduplicating its own output
    changes nothing. *)
Theorem deduplicate_idempotent :
  forall news_list : list news,
    _deduplicate_news (_deduplicate_news news_list)
    = _deduplicate_news news_list.
Proof.
  intros l. apply deduplicate_clean;
    apply deduplicate_links_and_titles_distinct.
Qed.

Lemma same_title_or_link_refl (n : news) :
  Spec.same_title_or_link n n = true.
Proof. unfold Spec.same_title_or_link. now rewrite String.eqb_refl. Qed.

(** X3. Nothing is lost without a stand-in: every input item has, among
    the items kept, one with its link or its normalized title (itself,
    if it was kept). So a batch that is not empty is never deduplicated
    to nothing. *)
Theorem deduplicate_covers_input :
  forall (news_list : list news) (n : news),
    In n news_list ->
    exists k, In k (_deduplicate_news news_list)
              /\ Spec.same_title_or_link n k = true.
Proof.
  induction news_list as [|m l IH] using rev_ind; intros n Hn.
  - destruct Hn.
  - rewrite deduplicate_snoc. apply in_app_or in Hn.
    destruct Hn as [Hn|[<-|[]]].
    + destruct (IH n Hn) as [k [Hk Hs]]. exists k. split; [|exact Hs].
      destruct (existsb _ (_deduplicate_news l)); [exact Hk|].
      apply in_or_app. now left.
    + destruct (existsb _ (_deduplicate_news l)) eqn:E.
      * apply existsb_exists in E. exact E.
      * exists m. split; [apply in_or_app; right; now left|].
        apply same_title_or_link_refl.
Qed.

(** The covering property on [Examples.chained]. *)
Lemma deduplicate_covers_input_witness :
  exists k, In k (_deduplicate_news Examples.chained)
            /\ Spec.same_title_or_link
                 (Examples.story "Beta goes public" "https://example.com/a") k
               = true.
Proof.
  apply (deduplicate_covers_input Examples.chained). simpl. tauto.
Defined.

(* ----------------------------------------------------------------- *)
(** ** What the batch analyzer returns *)

(** X4. [analyze_news_batch] returns input items only, in input order,
    whatever the grouping by five; when no input item is the empty dict,
    it returns every item, exactly once. *)
Theorem analyze_news_batch_keeps_items_in_order :
  forall (e : env) (news_list : list news),
    Spec.subsequence (map item (analyze_news_batch e news_list)) news_list
    /\ (forallb news_truthy news_list = true ->
        map item (analyze_news_batch e news_list) = news_list).
Proof.
  intros e l. rewrite analyze_news_batch_itemwise.
  induction l as [|n l [IH1 IH2]]; [split; [constructor | reflexivity]|].
  cbn [flat_map]. rewrite map_app.
  destruct (analyze_single_news_returns e n) as [r [Hr Hi]].
  rewrite Hr. cbn [Loop.kept_result]. unfold analyzed_truthy. rewrite Hi.
  split.
  - destruct (analysis_of r); [|destruct (news_truthy n)];
      cbn [map app]; rewrite ?Hi; now constructor.
  - cbn [forallb]. intros H. apply andb_true_iff in H.
    destruct H as [Hn Hl]. rewrite Hn, (IH2 Hl).
    destruct (analysis_of r); cbn [map app]; now rewrite Hi.
Qed.

(** X5. An item whose [published_date] is timezone-aware, as every date
    the fetcher builds is, never gets an analysis: subtracting it from
    [datetime.utcnow()] raises and the item is returned bare, with or
    without an LLM. *)
Theorem aware_date_discards_analysis :
  forall (e : env) (n : news),
    has_aware_date n = true ->
    analyze_single_news e n = Returned (mk_analyzed n None).
Proof.
  intros e n H. unfold analyze_single_news, _basic_analysis,
    _determine_urgency.
  unfold has_aware_date in H.
  destruct (published_date n) as [[us|us]|]; try discriminate H.
  reflexivity.
Qed.

Lemma aware_date_discards_analysis_witness :
  analyze_single_news Examples.local_only
    (Examples.dated_story "OpenAI raises $100 million"
                          "https://example.com/o" 0)
  = Returned (mk_analyzed
                (Examples.dated_story "OpenAI raises $100 million"
                                      "https://example.com/o" 0)
                None).
Proof. apply aware_date_discards_analysis. reflexivity. Defined.

Lemma default_fifth_finite : is_infinite (int_div 3 5) = false.
Proof. vm_compute. reflexivity. Qed.

Lemma urgency_returns (now : Z) (a : analysis) (n : news) :
  has_aware_date n = false ->
  exists u, _determine_urgency now a n = Returned u
            /\ In u ["high"; "medium"; "low"].
Proof.
  unfold has_aware_date, _determine_urgency. intros H.
  destruct (published_date n) as [[us|us]|]; try discriminate H.
  - destruct (_ && _)%bool; [eexists; split; [reflexivity|simpl; tauto]|].
    destruct (_ && _)%bool; [eexists; split; [reflexivity|simpl; tauto]|].
    destruct (gtb _ _); [eexists; split; [reflexivity|simpl; tauto]|].
    destruct (gtb _ _); eexists; (split; [reflexivity|simpl; tauto]).
  - destruct (gtb _ _); [eexists; split; [reflexivity|simpl; tauto]|].
    destruct (gtb _ _); eexists; (split; [reflexivity|simpl; tauto]).
Qed.

(** X6. Without an LLM (no API key), an item whose date is absent or
    naive always gets its analysis: the market impact stays unset and
    the overall score is [0.3*relevance + 0.4*importance + 0.3*(3/5)],
    with the urgency one of high, medium, low. *)
Theorem local_analysis_always_attached :
  forall (e : env) (n : news),
    client_configured e = false ->
    has_aware_date n = false ->
    exists a,
      analyze_single_news e n = Returned (mk_analyzed n (Some a))
      /\ market_impact a = None
      /\ In (urgency a) ["high"; "medium"; "low"]
      /\ overall_score a
         = Some (add (add (mul (_calculate_relevance_score (full_text n))
                               (lit 3 1))
                          (mul (_calculate_importance_score
                                  (extracted (full_text n)) (full_text n))
                               (lit 4 1)))
                     (mul (int_div 3 5) (lit 3 1))).
Proof.
  intros e n Hc Hd. unfold analyze_single_news, _basic_analysis.
  destruct (urgency_returns (utcnow e)
              (set_importance_score (extracted (full_text n))
                 (_calculate_importance_score (extracted (full_text n))
                                              (full_text n)))
              n Hd) as [u [Hu Hin]].
  rewrite Hu, Hc.
  unfold _calculate_overall_score, market_impact_fifth.
  cbn [market_impact merge ai_market_impact no_ai_fields].
  rewrite default_fifth_finite.
  eexists. split; [reflexivity|].
  cbn [market_impact urgency overall_score set_overall_score merge
       set_urgency ai_market_impact no_ai_fields relevance_score
       importance_score set_importance_score extracted].
  repeat split. exact Hin.
Qed.

Lemma local_analysis_always_attached_witness :
  exists a,
    analyze_single_news Examples.local_only Examples.scenario_news
    = Returned (mk_analyzed Examples.scenario_news (Some a))
    /\ market_impact a = None.
Proof.
  destruct (local_analysis_always_attached Examples.local_only
              Examples.scenario_news eq_refl eq_refl)
    as [a [H1 [H2 _]]].
  exists a. split; assumption.
Defined.

(** X7. The LLM reply never alters the local results: whenever an
    analysis is attached, its scores, extractions, category and urgency
    are those of [_basic_analysis]. *)
Theorem enrichment_keeps_local_results :
  forall (e : env) (n : news) (r : analyzed) (a : analysis),
    analyze_single_news e n = Returned r ->
    analysis_of r = Some a ->
    exists b,
      _basic_analysis (utcnow e) n = Returned b
      /\ relevance_score a = relevance_score b
      /\ importance_score a = importance_score b
      /\ funding_amount a = funding_amount b
      /\ funding_round a = funding_round b
      /\ companies a = companies b
      /\ investors a = investors b
      /\ category a = category b
      /\ urgency a = urgency b.
Proof.
  intros e n r a H Ha. unfold analyze_single_news in H.
  destruct (_basic_analysis (utcnow e) n) as [b|x];
    [|apply Returned_inj in H; subst r; discriminate Ha].
  destruct (_calculate_overall_score _) as [o|x];
    apply Returned_inj in H; subst r; [|discriminate Ha].
  cbn [analysis_of] in Ha. apply Some_inj in Ha. subst a.
  exists b. split; [reflexivity|]. repeat split.
Qed.

Lemma enrichment_keeps_local_results_witness :
  exists a b,
    analyze_single_news Examples.llm_well_formed Examples.scenario_news
    = Returned (mk_analyzed Examples.scenario_news (Some a))
    /\ market_impact a = Some (JInt 4)
    /\ _basic_analysis 0 Examples.scenario_news = Returned b
    /\ importance_score a = importance_score b
    /\ companies a = companies b.
Proof.
  destruct (analyze_single_news Examples.llm_well_formed
              Examples.scenario_news) as [r|x] eqn:H;
    [|vm_compute in H; discriminate H].
  destruct (analysis_of r) as [a|] eqn:Ha;
    [|vm_compute in H; apply Returned_inj in H; subst r; discriminate Ha].
  destruct (enrichment_keeps_local_results _ _ _ _ H Ha)
    as (b & Hb & _ & Hi & _ & _ & Hc & _).
  exists a, b.
  assert (Hr : r = mk_analyzed Examples.scenario_news (Some a)).
  { vm_compute in H. apply Returned_inj in H. subst r.
    cbn [analysis_of] in Ha. apply Some_inj in Ha. now subst a. }
  subst r. split; [reflexivity|]. split.
  - vm_compute in H. apply Returned_inj in H.
    apply (f_equal analysis_of) in H. cbn [analysis_of] in H.
    apply Some_inj in H. now subst a.
  - tauto.
Defined.

(* ----------------------------------------------------------------- *)
(** ** Trending topics: names and ties *)






(* ----------------------------------------------------------------- *)
(** ** The relevance score and the keywords *)

Lemma add_weights_no_hit (text : string) (table : list (string * float)) :
  forall score,
    existsb (fun kw => PyStr.contains (fst kw) text) table = false ->
    add_weights table text score = score.
Proof.
  induction table as [|[k w] table IH]; intros score H; [reflexivity|].
  cbn [existsb fst] in H. apply orb_false_iff in H. destruct H as [Hk Ht].
  cbn [add_weights]. rewrite Hk. now apply IH.
Qed.

Lemma hit_step_old (w : float) (values hit : list float) (x : float) :
  In x hit -> In x (Reach.hit_step w values hit).
Proof.
  intros H. unfold Reach.hit_step, Reach.distinct. apply nodup_In.
  apply in_or_app. now left.
Qed.

Lemma hit_step_new (w : float) (values hit : list float) (x : float) :
  In x values -> In (add x w) (Reach.hit_step w values hit).
Proof.
  intros H. unfold Reach.hit_step, Reach.distinct. apply nodup_In.
  apply in_or_app. right. apply in_map_iff. now exists x.
Qed.

Lemma hit_sums_reach (text : string) (table : list (string * float)) :
  forall (values hit : list float) (score : float) (b : bool),
    In score values ->
    (b = true -> In score hit) ->
    (b || existsb (fun kw => PyStr.contains (fst kw) text) table)%bool = true ->
    In (add_weights table text score) (Reach.hit_sums table values hit).
Proof.
  induction table as [|[k w] table IH]; intros values hit score b Hv Hh Hb.
  - cbn [existsb] in Hb. rewrite orb_false_r in Hb. now apply Hh.
  - cbn [add_weights Reach.hit_sums existsb fst] in *.
    destruct (PyStr.contains k text).
    + apply (IH _ _ _ true).
      * apply step_add; [exact Hv | now left].
      * intros _. now apply hit_step_new.
      * reflexivity.
    + apply (IH _ _ _ b).
      * now apply step_keep.
      * intros E. apply hit_step_old. now apply Hh.
      * exact Hb.
Qed.

Lemma relevance_hit_values_at_least_tenth :
  forallb (fun x => geb x (lit 1 1)) Reach.relevance_hit_values = true.
Proof. vm_compute. reflexivity. Qed.

Lemma existsb_keyword (text : string) (table : list (string * float)) :
  existsb (fun kw => PyStr.contains (fst kw) text) table = true <->
  exists k w, In (k, w) table /\ Spec.occurs_in k text.
Proof.
  rewrite existsb_exists. split.
  - intros [[k w] [Hin H]]. exists k, w. split; [exact Hin|].
    now apply contains_occurs.
  - intros [k [w [Hin H]]]. exists (k, w). split; [exact Hin|].
    now apply contains_occurs.
Qed.

(** X9. The relevance score is 0.0 when no keyword of the two weight
    tables occurs in the text, and at least 0.1, the smallest weight,
    as soon as one does. *)
Theorem relevance_zero_without_keyword :
  forall text : string,
    ((forall k w, In (k, w) (ai_weights ++ investment_weights) ->
        ~ Spec.occurs_in k text) ->
     _calculate_relevance_score text = zero)
    /\ ((exists k w, In (k, w) (ai_weights ++ investment_weights)
                     /\ Spec.occurs_in k text) ->
        geb (_calculate_relevance_score text) (lit 1 1) = true).
Proof.
  intros text. split.
  - intros H. unfold _calculate_relevance_score.
    assert (Hno : forall table,
               incl table (ai_weights ++ investment_weights) ->
               existsb (fun kw => PyStr.contains (fst kw) text) table = false).
    { intros table Hi.
      destruct (existsb _ table) eqn:E; [|reflexivity].
      apply existsb_keyword in E. destruct E as [k [w [Hin Ho]]].
      exfalso. exact (H k w (Hi _ Hin) Ho). }
    rewrite !add_weights_no_hit.
    + reflexivity.
    + apply Hno, incl_appl, incl_refl.
    + apply Hno, incl_appr, incl_refl.
  - intros H. apply existsb_keyword in H. rewrite existsb_app in H.
    pose proof relevance_hit_values_at_least_tenth as Hall.
    rewrite forallb_forall in Hall. apply Hall.
    unfold _calculate_relevance_score, Reach.relevance_hit_values.
    apply capped_In.
    apply (hit_sums_reach text investment_weights _ _ _
             (existsb (fun kw => PyStr.contains (fst kw) text) ai_weights)).
    + apply sums_reach. now left.
    + intros E. apply (hit_sums_reach text ai_weights _ _ _ false).
      * now left.
      * discriminate.
      * exact E.
    + exact H.
Qed.

(* ----------------------------------------------------------------- *)
(** ** The category *)

Lemma max_by_score_first (rest : list (string * nat)) :
  forall (pre0 : list (string * nat)) (best : string * nat)
         (post0 : list (string * nat)),
    (forall x, In x pre0 -> snd x < snd best) ->
    (forall x, In x post0 -> snd x <= snd best) ->
    exists pre e post,
      pre0 ++ best :: post0 ++ rest = pre ++ e :: post
      /\ max_by_score best rest = fst e
      /\ (forall x, In x pre -> snd x < snd e)
      /\ (forall x, In x post -> snd x <= snd e).
Proof.
  induction rest as [|e1 rest IH]; intros pre0 best post0 Hpre Hpost.
  - exists pre0, best, post0. rewrite app_nil_r. auto.
  - cbn [max_by_score]. destruct (Nat.ltb (snd best) (snd e1)) eqn:E.
    + apply Nat.ltb_lt in E.
      destruct (IH (pre0 ++ best :: post0) e1 []) as (pre & e & post & H).
      * intros x Hx. apply in_app_or in Hx.
        destruct Hx as [Hx|[<-|Hx]]; [specialize (Hpre x Hx)| |
                                      specialize (Hpost x Hx)]; lia.
      * intros x [].
      * exists pre, e, post. rewrite <- app_assoc in H. exact H.
    + apply Nat.ltb_ge in E.
      destruct (IH pre0 best (post0 ++ [e1])) as (pre & e & post & H).
      * exact Hpre.
      * intros x Hx. apply in_app_or in Hx.
        destruct Hx as [Hx|[<-|[]]]; [now apply Hpost | exact E].
      * exists pre, e, post. rewrite <- app_assoc in H. exact H.
Qed.

Section CategoryScores.

Variable text : string.

Lemma category_scores_In (table : list (string * list string))
  (c : string) (kws : list string) :
  In (c, kws) table -> 0 < keyword_hits kws text ->
  In (c, keyword_hits kws text) (category_scores table text).
Proof.
  induction table as [|[c' k'] table IH]; intros Hin Hpos; [destruct Hin|].
  cbn [category_scores]. destruct Hin as [Hin|Hin].
  - injection Hin as -> ->. apply Nat.ltb_lt in Hpos. rewrite Hpos.
    now left.
  - destruct (Nat.ltb 0 (keyword_hits k' text)); [right|]; now apply IH.
Qed.

Lemma category_scores_split (table : list (string * list string)) :
  forall (pre_s : list (string * nat)) (e : string * nat)
         (post_s : list (string * nat)),
    category_scores table text = pre_s ++ e :: post_s ->
    exists pre kws post,
      table = pre ++ (fst e, kws) :: post
      /\ snd e = keyword_hits kws text
      /\ 0 < keyword_hits kws text
      /\ category_scores pre text = pre_s
      /\ category_scores post text = post_s.
Proof.
  induction table as [|[c kws] table IH]; intros pre_s e post_s H.
  - destruct pre_s; discriminate H.
  - cbn [category_scores] in H.
    destruct (Nat.ltb 0 (keyword_hits kws text)) eqn:E.
    + destruct pre_s as [|p pre_s].
      * injection H as <- H. exists [], kws, table.
        apply Nat.ltb_lt in E. cbn [fst snd app category_scores]. auto.
      * injection H as <- H.
        destruct (IH _ _ _ H) as (pre & k & post & -> & H1 & H2 & H3 & H4).
        exists ((c, kws) :: pre), k, post.
        cbn [app category_scores]. rewrite E, H3. auto.
    + destruct (IH _ _ _ H) as (pre & k & post & -> & H1 & H2 & H3 & H4).
      exists ((c, kws) :: pre), k, post.
      cbn [app category_scores]. rewrite E. auto.
Qed.

Lemma category_scores_nil (table : list (string * list string)) :
  category_scores table text = [] ->
  forall c kws, In (c, kws) table -> keyword_hits kws text = 0.
Proof.
  induction table as [|[c' k'] table IH]; intros H c kws Hin;
    [destruct Hin|].
  cbn [category_scores] in H.
  destruct (Nat.ltb 0 (keyword_hits k' text)) eqn:E; [discriminate H|].
  apply Nat.ltb_ge in E. destruct Hin as [Hin|Hin].
  - injection Hin as -> ->. lia.
  - now apply (IH H c).
Qed.

End CategoryScores.

(** X10. [_categorize_news] returns "general" exactly when no keyword of
    any category occurs in the text; otherwise it returns the category
    with the most keyword hits, and among categories with equally many
    hits the first in the order funding, acquisition, ipo, product,
    partnership, research, regulation. It never returns the initial
    value "unknown". *)
Theorem categorize_by_keyword_hits :
  forall text : string,
    ((_categorize_news text = "general"
      /\ forall c kws, In (c, kws) categories -> keyword_hits kws text = 0)
     \/ (exists pre c kws post,
           categories = pre ++ (c, kws) :: post
           /\ _categorize_news text = c
           /\ 0 < keyword_hits kws text
           /\ (forall c' kws', In (c', kws') pre ->
                 keyword_hits kws' text < keyword_hits kws text)
           /\ (forall c' kws', In (c', kws') post ->
                 keyword_hits kws' text <= keyword_hits kws text)))
    /\ In (_categorize_news text) ("general" :: map fst categories).
Proof.
  intros text.
  assert (H : (_categorize_news text = "general"
      /\ forall c kws, In (c, kws) categories -> keyword_hits kws text = 0)
     \/ (exists pre c kws post,
           categories = pre ++ (c, kws) :: post
           /\ _categorize_news text = c
           /\ 0 < keyword_hits kws text
           /\ (forall c' kws', In (c', kws') pre ->
                 keyword_hits kws' text < keyword_hits kws text)
           /\ (forall c' kws', In (c', kws') post ->
                 keyword_hits kws' text <= keyword_hits kws text))).
  { unfold _categorize_news.
    destruct (category_scores categories text) as [|first rest] eqn:E.
    - left. split; [reflexivity|]. now apply category_scores_nil.
    - right.
      destruct (max_by_score_first rest [] first [])
        as (pre_s & e & post_s & Hs & Hm & Hlt & Hle);
        [intros x []|intros x []|].
      cbn [app] in Hs. rewrite Hs in E.
      destruct (category_scores_split text categories _ _ _ E)
        as (pre & kws & post & Hc & He & Hpos & Hpre & Hpost).
      exists pre, (fst e), kws, post.
      split; [exact Hc|]. split; [exact Hm|]. split; [exact Hpos|]. split.
      + intros c' k' Hin.
        destruct (Nat.eq_dec (keyword_hits k' text) 0) as [Hz|Hz]; [lia|].
        assert (Hin' : In (c', keyword_hits k' text) pre_s).
        { rewrite <- Hpre. apply category_scores_In; [exact Hin | lia]. }
        specialize (Hlt _ Hin'). cbn [snd] in Hlt. lia.
      + intros c' k' Hin.
        destruct (Nat.eq_dec (keyword_hits k' text) 0) as [Hz|Hz]; [lia|].
        assert (Hin' : In (c', keyword_hits k' text) post_s).
        { rewrite <- Hpost. apply category_scores_In; [exact Hin | lia]. }
        specialize (Hle _ Hin'). cbn [snd] in Hle. lia. }
  split; [exact H|].
  destruct H as [[-> _]|(pre & c & kws & post & Hc & -> & _)].
  - now left.
  - right. rewrite Hc, map_app. apply in_or_app. right. now left.
Qed.

(* ----------------------------------------------------------------- *)
(** ** What the patterns capture *)

Lemma append_nil_r (s : string) : (s ++ EmptyString)%string = s.
Proof. induction s as [|c s IH]; simpl; [reflexivity | now rewrite IH]. Qed.

Lemma append_assoc (s t u : string) :
  ((s ++ t) ++ u)%string = (s ++ t ++ u)%string.
Proof. induction s as [|c s IH]; simpl; [reflexivity | now rewrite IH]. Qed.

Lemma length_append (s t : string) :
  String.length (s ++ t) = String.length s + String.length t.
Proof. induction s as [|c s IH]; simpl; [reflexivity | now rewrite IH]. Qed.

Lemma take_append (s t : string) :
  PyStr.take (String.length s) (s ++ t) = s.
Proof. induction s as [|c s IH]; simpl; [reflexivity | now rewrite IH]. Qed.

Lemma occurs_in_suffix (c w s : string) :
  Spec.occurs_in c s -> Spec.occurs_in c (w ++ s).
Proof.
  intros [before [after ->]]. exists (w ++ before)%string, after.
  now rewrite append_assoc.
Qed.

(** Every way of matching consumes a prefix that the pattern matches in
    full. *)
Lemma rmatch_sound (ic : bool) (r : re) :
  forall (s : string) (o : outcome),
    In o (rmatch ic r s) ->
    exists w, s = (w ++ fst o)%string /\ lang ic r w.
Proof.
  induction r as [|k|a IHa b IHb|a IHa b IHb|a IHa|a IHa]; intros s o Ho.
  - destruct Ho as [<-|[]]. exists EmptyString. split; [reflexivity|].
    constructor.
  - simpl in Ho. destruct s as [|c s]; [destruct Ho|].
    destruct (chr_match ic k c) eqn:E; [|destruct Ho].
    destruct Ho as [<-|[]]. exists (String c EmptyString).
    split; [reflexivity | now constructor].
  - simpl in Ho. apply in_flat_map in Ho. destruct Ho as [o1 [H1 H2]].
    apply in_map_iff in H2. destruct H2 as [o2 [<- H2]]. cbn [fst].
    destruct (IHa s o1 H1) as [u [-> Hu]].
    destruct (IHb _ o2 H2) as [v [Hv Lv]].
    exists (u ++ v)%string. split; [|now constructor].
    rewrite Hv at 1. now rewrite append_assoc.
  - simpl in Ho. apply in_app_or in Ho. destruct Ho as [Ho|Ho].
    + destruct (IHa s o Ho) as [w [-> Hw]]. exists w.
      split; [reflexivity | now apply lang_alt_l].
    + destruct (IHb s o Ho) as [w [-> Hw]]. exists w.
      split; [reflexivity | now apply lang_alt_r].
  - simpl in Ho. revert Ho. generalize (String.length s) at 1.
    intros fuel. revert s o.
    induction fuel as [|fuel IH]; intros s o Ho.
    + destruct Ho as [<-|[]]. exists EmptyString.
      split; [reflexivity | constructor].
    + apply in_app_or in Ho. destruct Ho as [Ho|[<-|[]]];
        [|exists EmptyString; split; [reflexivity | constructor]].
      apply in_flat_map in Ho. destruct Ho as [o1 [H1 H2]].
      destruct (Nat.ltb (String.length (fst o1)) (String.length s));
        [|destruct H2].
      apply in_map_iff in H2. destruct H2 as [o2 [<- H2]]. cbn [fst].
      destruct (IHa s o1 H1) as [u [-> Hu]].
      destruct (IH _ o2 H2) as [v [Hv Lv]].
      exists (u ++ v)%string. split; [|now constructor].
      rewrite Hv at 1. now rewrite append_assoc.
  - simpl in Ho. apply in_map_iff in Ho. destruct Ho as [o1 [<- H1]].
    cbn [fst]. destruct (IHa s o1 H1) as [w [-> Hw]]. exists w.
    split; [reflexivity | now constructor].
Qed.

(** The text a match captures is matched in full by a group of the
    pattern, and it is a piece of the text searched. *)
Lemma rmatch_capture (ic : bool) (r : re) :
  forall (s : string) (o : outcome) (c : string),
    In o (rmatch ic r s) -> snd o = Some c ->
    exists g, In g (groups r) /\ lang ic g c /\ Spec.occurs_in c s.
Proof.
  induction r as [|k|a IHa b IHb|a IHa b IHb|a IHa|a IHa];
    intros s o c Ho Hc.
  - destruct Ho as [<-|[]]. discriminate Hc.
  - simpl in Ho. destruct s as [|ch s]; [destruct Ho|].
    destruct (chr_match ic k ch); [|destruct Ho].
    destruct Ho as [<-|[]]. discriminate Hc.
  - simpl in Ho. apply in_flat_map in Ho. destruct Ho as [o1 [H1 H2]].
    apply in_map_iff in H2. destruct H2 as [o2 [<- H2]]. cbn [snd] in Hc.
    destruct (snd o2) as [c2|] eqn:E2; cbn [later] in Hc.
    + apply Some_inj in Hc. subst c2.
      destruct (IHb _ o2 c H2 E2) as [g [Hg [Lg Og]]].
      exists g. split; [apply in_or_app; now right|]. split; [exact Lg|].
      destruct (rmatch_sound ic a s o1 H1) as [u [-> _]].
      now apply occurs_in_suffix.
    + destruct (IHa s o1 c H1 Hc) as [g [Hg [Lg Og]]].
      exists g. split; [apply in_or_app; now left|]. tauto.
  - simpl in Ho. apply in_app_or in Ho. destruct Ho as [Ho|Ho].
    + destruct (IHa s o c Ho Hc) as [g [Hg H]]. exists g.
      split; [apply in_or_app; now left | exact H].
    + destruct (IHb s o c Ho Hc) as [g [Hg H]]. exists g.
      split; [apply in_or_app; now right | exact H].
  - simpl in Ho. revert Ho. generalize (String.length s) at 1.
    intros fuel. revert s o c Hc.
    induction fuel as [|fuel IH]; intros s o c Hc Ho.
    + destruct Ho as [<-|[]]. discriminate Hc.
    + apply in_app_or in Ho. destruct Ho as [Ho|[<-|[]]];
        [|discriminate Hc].
      apply in_flat_map in Ho. destruct Ho as [o1 [H1 H2]].
      destruct (Nat.ltb (String.length (fst o1)) (String.length s));
        [|destruct H2].
      apply in_map_iff in H2. destruct H2 as [o2 [<- H2]]. cbn [snd] in Hc.
      destruct (snd o2) as [c2|] eqn:E2; cbn [later] in Hc.
      * apply Some_inj in Hc. subst c2.
        destruct (IH _ o2 c E2 H2) as [g [Hg [Lg Og]]].
        exists g. split; [exact Hg|]. split; [exact Lg|].
        destruct (rmatch_sound ic a s o1 H1) as [u [-> _]].
        now apply occurs_in_suffix.
      * exact (IHa s o1 c H1 Hc).
  - simpl in Ho. apply in_map_iff in Ho. destruct Ho as [o1 [<- H1]].
    cbn [snd] in Hc. apply Some_inj in Hc.
    destruct (rmatch_sound ic a s o1 H1) as [w [Hs Lw]].
    exists a. split; [now left|].
    assert (E : c = w).
    { rewrite <- Hc, Hs, length_append, Nat.add_sub. apply take_append. }
    clear Hc. subst c. split; [exact Lw|].
    exists EmptyString, (fst o1). exact Hs.
Qed.

Lemma rmatch_always_captures (ic : bool) (r : re) :
  always_captures r = true ->
  forall (s : string) (o : outcome),
    In o (rmatch ic r s) -> snd o <> None.
Proof.
  induction r as [|k|a IHa b IHb|a IHa b IHb|a IHa|a IHa];
    simpl; intros Hr s o Ho; try discriminate Hr.
  - apply in_flat_map in Ho. destruct Ho as [o1 [H1 H2]].
    apply in_map_iff in H2. destruct H2 as [o2 [<- H2]]. cbn [snd].
    apply orb_true_iff in Hr.
    destruct (snd o2) eqn:E2; cbn [later]; [discriminate|].
    destruct Hr as [Hr|Hr].
    + exact (IHa Hr s o1 H1).
    + exfalso. exact (IHb Hr _ o2 H2 E2).
  - apply andb_true_iff in Hr. destruct Hr as [Ha Hb].
    apply in_app_or in Ho. destruct Ho as [Ho|Ho];
      [exact (IHa Ha s o Ho) | exact (IHb Hb s o Ho)].
  - apply in_map_iff in Ho. destruct Ho as [o1 [<- H1]]. discriminate.
Qed.

(** What [re.findall] returns for a pattern whose group always takes
    part: texts matched by a group of the pattern, pieces of the text
    searched. *)
Lemma findall_captures (ic : bool) (r : re) :
  always_captures r = true ->
  forall (fuel : nat) (s m : string),
    In m (findall_from fuel ic r s) ->
    exists g, In g (groups r) /\ lang ic g m /\ Spec.occurs_in m s.
Proof.
  intros Hr. induction fuel as [|fuel IH]; intros s m Hm; [destruct Hm|].
  cbn [findall_from] in Hm.
  assert (Htail : forall c s', s = String c s' ->
            In m (findall_from fuel ic r s') ->
            exists g, In g (groups r) /\ lang ic g m /\ Spec.occurs_in m s).
  { intros c s' -> H. destruct (IH s' m H) as [g [Hg [Lg Og]]].
    exists g. split; [exact Hg|]. split; [exact Lg|].
    exact (occurs_in_suffix m (String c EmptyString) s' Og). }
  destruct (rmatch ic r s) as [|[rest g] others] eqn:E.
  - destruct s as [|c s']; [destruct Hm | now apply (Htail c s')].
  - assert (Ho : In (rest, g) (rmatch ic r s)) by (rewrite E; now left).
    destruct g as [t|]; [|exfalso; exact (rmatch_always_captures ic r Hr s _ Ho eq_refl)].
    assert (Hhead : exists g, In g (groups r) /\ lang ic g t
                              /\ Spec.occurs_in t s)
      by exact (rmatch_capture ic r s _ t Ho eq_refl).
    destruct (Nat.ltb (String.length rest) (String.length s)).
    + destruct Hm as [<-|Hm]; [exact Hhead|].
      destruct (IH rest m Hm) as [g [Hg [Lg Og]]].
      exists g. split; [exact Hg|]. split; [exact Lg|].
      destruct (rmatch_sound ic r s _ Ho) as [w [Hs _]]. cbn [fst] in Hs.
      rewrite Hs. now apply occurs_in_suffix.
    + destruct Hm as [<-|Hm]; [exact Hhead|].
      destruct s as [|c s']; [destruct Hm | now apply (Htail c s')].
Qed.

Lemma chr_match_digit (ic : bool) (c : ascii) :
  chr_match ic CDigit c = true -> PyStr.is_digit c = true.
Proof.
  destruct ic; destruct c as [[] [] [] [] [] [] [] []];
    intros H; first [reflexivity | discriminate H].
Qed.

Lemma chr_match_dot (ic : bool) (c : ascii) :
  chr_match ic (CChar ".") c = true -> c = "."%char.
Proof.
  destruct ic; destruct c as [[] [] [] [] [] [] [] []];
    intros H; first [reflexivity | discriminate H].
Qed.

Lemma digit_not_dot (c : ascii) :
  PyStr.is_digit c = true -> Ascii.eqb c "." = false.
Proof.
  destruct c as [[] [] [] [] [] [] [] []];
    intros H; first [reflexivity | discriminate H].
Qed.

Lemma all_digits_append (s t : string) :
  Spec.all_digits (s ++ t) = (Spec.all_digits s && Spec.all_digits t)%bool.
Proof.
  induction s as [|c s IH]; simpl; [reflexivity|].
  now rewrite IH, andb_assoc.
Qed.

Lemma lang_digit (ic : bool) (w : string) :
  lang ic digit w ->
  exists c, w = String c EmptyString /\ PyStr.is_digit c = true.
Proof.
  intros H. inversion H; subst. exists c. split; [reflexivity|].
  now apply (chr_match_digit ic).
Qed.

Lemma lang_star_digits (ic : bool) (w : string) :
  lang ic (Star digit) w -> Spec.all_digits w = true.
Proof.
  intros H. remember (Star digit) as r eqn:E.
  induction H as [| | | | | |a u v Hu _ Hv IH|]; try discriminate E.
  - reflexivity.
  - injection E as ->. destruct (lang_digit ic u Hu) as [c [-> Hc]].
    simpl. rewrite Hc. now apply IH.
Qed.

Lemma lang_plus_digits (ic : bool) (w : string) :
  lang ic (Plus digit) w ->
  exists c w', w = String c w' /\ Spec.all_digits w = true.
Proof.
  intros H. inversion H as [| |a b u v Hu Hv| | | | |]; subst.
  destruct (lang_digit ic u Hu) as [c [-> Hc]].
  exists c, v. split; [reflexivity|]. simpl.
  now rewrite Hc, (lang_star_digits ic v Hv).
Qed.

Lemma split_dot_digits (d : string) :
  Spec.all_digits d = true ->
  split_dot d = (d, None)
  /\ forall d2, split_dot (d ++ String "." d2) = (d, Some d2).
Proof.
  induction d as [|c d IH]; intros H.
  - split; reflexivity.
  - simpl in H. apply andb_true_iff in H. destruct H as [Hc Hd].
    destruct (IH Hd) as [H1 H2]. split.
    + cbn [split_dot]. now rewrite (digit_not_dot c Hc), H1.
    + intros d2. cbn [append split_dot].
      now rewrite (digit_not_dot c Hc), H2.
Qed.

Lemma digits_value_some (d : string) :
  Spec.all_digits d = true ->
  forall acc, exists v, digits_value acc d = Some v.
Proof.
  induction d as [|c d IH]; intros H acc.
  - now exists acc.
  - simpl in H. apply andb_true_iff in H. destruct H as [Hc Hd].
    cbn [digits_value]. rewrite Hc. now apply IH.
Qed.

(** [float] reads whatever [\d+(?:\.\d+)?] matches. *)
Lemma lang_number_float (ic : bool) (w : string) :
  lang ic number w ->
  (exists f, of_string w = Some f) /\ w <> EmptyString.
Proof.
  intros H. unfold number in H.
  inversion H as [| |a b u v Hu Hv| | | | |]; subst.
  destruct (lang_plus_digits ic u Hu) as [c [u' [-> Du]]].
  split; [|discriminate].
  destruct (split_dot_digits _ Du) as [S1 S2].
  destruct (digits_value_some _ Du 0%Z) as [n Hn].
  inversion Hv as [| | |a b x Hx|a b x Hx| | |]; subst.
  - inversion Hx as [| |a b y z Hy Hz| | | | |]; subst.
    inversion Hy as [|k ch Hch| | | | | |]; subst.
    apply chr_match_dot in Hch. subst ch.
    destruct (lang_plus_digits ic z Hz) as [c2 [z' [-> Dz]]].
    destruct (digits_value_some _ Dz 0%Z) as [m Hm].
    unfold of_string. cbn [append] in *. rewrite S2.
    cbn [nonempty andb]. rewrite Hn, Hm. eexists. reflexivity.
  - inversion Hx; subst. rewrite append_nil_r.
    unfold of_string. rewrite S1. cbn [nonempty]. rewrite Hn.
    eexists. reflexivity.
Qed.

Lemma first_capture_In (patterns : list re) (text m : string) :
  first_capture patterns text = Some m ->
  exists p, In p patterns /\ In m (findall true p text).
Proof.
  induction patterns as [|p patterns IH]; [discriminate|].
  cbn [first_capture]. destruct (findall true p text) as [|x xs] eqn:E.
  - intros H. destruct (IH H) as [q [Hq Hm]]. exists q. split; [now right|].
    exact Hm.
  - intros H. apply Some_inj in H. subst x. exists p.
    split; [now left|]. rewrite E. now left.
Qed.

Lemma amount_patterns_shape (p : re) :
  In p amount_patterns -> always_captures p = true /\ groups p = [number].
Proof.
  intros [<-|[<-|[<-|[<-|[]]]]]; split; reflexivity.
Qed.

(** X11. An extracted funding amount is a piece of the text made of
    digits with an optional fraction; [float] reads it, so the
    [except] around the conversion never fires, and it is not empty. *)
Theorem funding_amount_is_a_numeral_of_the_text :
  forall text m : string,
    _extract_funding_amount text = Some m ->
    Spec.occurs_in m text
    /\ (exists f, of_string m = Some f)
    /\ m <> EmptyString.
Proof.
  intros text m H. unfold _extract_funding_amount in H.
  apply first_capture_In in H. destruct H as [p [Hp Hm]].
  destruct (amount_patterns_shape p Hp) as [Hc Hg].
  destruct (findall_captures true p Hc _ text m Hm) as [g [Hin [Lg Og]]].
  rewrite Hg in Hin. destruct Hin as [<-|[]].
  split; [exact Og|]. now apply (lang_number_float true).
Qed.

Lemma funding_amount_is_a_numeral_of_the_text_witness :
  Spec.occurs_in "100" Examples.scenario_text
  /\ exists f, of_string "100" = Some f.
Proof.
  destruct (funding_amount_is_a_numeral_of_the_text
              Examples.scenario_text "100" eq_refl) as [H1 [H2 _]].
  split; assumption.
Defined.

Lemma importance_funded_values_at_least_tenth :
  forallb (fun x => geb x (lit 1 1)) Reach.importance_funded_values = true.
Proof. vm_compute. reflexivity. Qed.

(** X12. Whenever a funding amount is extracted from the text, the
    importance score of the item is at least 0.1. *)
Theorem funding_amount_raises_importance :
  forall text m : string,
    _extract_funding_amount text = Some m ->
    geb (_calculate_importance_score (extracted text) text) (lit 1 1) = true.
Proof.
  intros text m H.
  destruct (funding_amount_is_a_numeral_of_the_text text m H)
    as (_ & [f Hf] & Hne).
  pose proof importance_funded_values_at_least_tenth as Hall.
  rewrite forallb_forall in Hall. apply Hall.
  unfold _calculate_importance_score, Reach.importance_funded_values.
  apply capped_In. cbv zeta beta.
  apply step_if. apply step_if3. apply step_if.
  cbn [funding_amount extracted]. rewrite H.
  destruct m as [|c m]; [now contradiction Hne|].
  cbn [PyStr.truthy get]. rewrite Hf.
  destruct (PyStr.contains "billion" text
            || PyStr.contains "b" (String c m))%bool; [simpl; tauto|].
  destruct (geb f (of_int 100)); [simpl; tauto|].
  destruct (geb f (of_int 50)); simpl; tauto.
Qed.

Lemma funding_amount_raises_importance_witness :
  geb (_calculate_importance_score (extracted Examples.scenario_text)
                                   Examples.scenario_text)
      (lit 1 1) = true.
Proof.
  exact (funding_amount_raises_importance Examples.scenario_text "100"
                                          eq_refl).
Defined.

Lemma cap_words_first_char (ic : bool) (w : string) :
  lang ic cap_words w ->
  exists c w', w = String c w' /\ chr_match ic (CRange "A" "Z") c = true.
Proof.
  intros H. unfold cap_words in H.
  inversion H as [| |a b u v Hu Hv| | | | |]; subst.
  inversion Hu as [| |a b x y Hx Hy| | | | |]; subst.
  inversion Hx as [|k c Hc| | | | | |]; subst.
  exists c, (y ++ v)%string. split; [reflexivity | exact Hc].
Qed.

Lemma chr_match_letter (c : ascii) :
  chr_match true (CRange "A" "Z") c = true -> PyStr.is_ascii_letter c = true.
Proof.
  destruct c as [[] [] [] [] [] [] [] []];
    intros H; first [reflexivity | discriminate H].
Qed.

Lemma company_patterns_shape (p : re) :
  In p company_patterns ->
  always_captures p = true /\ groups p = [cap_words].
Proof.
  intros [<-|[<-|[<-|[<-|[]]]]]; split; reflexivity.
Qed.

Lemma investor_patterns_shape (p : re) :
  In p investor_patterns ->
  always_captures p = true /\ groups p = [cap_words].
Proof.
  intros [<-|[<-|[<-|[<-|[]]]]]; split; reflexivity.
Qed.

(** X13. A company name [_extract_companies] returns is either the
    title-cased form of a known company that occurs in the text, or a
    piece of the text itself that starts with one of the letters
    A..Z. *)
Theorem extracted_companies_come_from_the_text :
  forall text c : string,
    In c (_extract_companies text) ->
    (exists k, In k important_companies
               /\ Spec.occurs_in k text /\ c = PyStr.title k)
    \/ (Spec.occurs_in c text
        /\ exists ch rest, c = String ch rest
                           /\ PyStr.is_ascii_upper ch = true).
Proof.
  intros text c H. unfold _extract_companies, list_set in H.
  apply nodup_In in H. unfold companies_found in H.
  apply in_app_or in H. destruct H as [H|H].
  - left. now apply known_companies_In.
  - right. apply in_flat_map in H. destruct H as [p [Hp Hc]].
    destruct (company_patterns_shape p Hp) as [Ha Hg].
    destruct (findall_captures false p Ha _ text c Hc) as [g [Hin [Lg Og]]].
    rewrite Hg in Hin. destruct Hin as [<-|[]].
    split; [exact Og|].
    destruct (cap_words_first_char false c Lg) as [ch [rest [-> Hch]]].
    exists ch, rest. split; [reflexivity|].
    unfold chr_match in Hch. rewrite andb_false_l, orb_false_r in Hch.
    exact Hch.
Qed.

Lemma extracted_companies_come_from_the_text_witness :
  (exists k, In k important_companies
             /\ Spec.occurs_in k Examples.capitalized_text
             /\ "Acme Robotics" = PyStr.title k)
  \/ (Spec.occurs_in "Acme Robotics" Examples.capitalized_text
      /\ exists ch rest, "Acme Robotics" = String ch rest
                         /\ PyStr.is_ascii_upper ch = true).
Proof.
  apply (extracted_companies_come_from_the_text Examples.capitalized_text).
  vm_compute. tauto.
Defined.

Lemma no_upper_occurs (c s : string) :
  Spec.occurs_in c s -> Spec.no_upper s = true -> Spec.no_upper c = true.
Proof.
  intros [before [after ->]]. rewrite !no_upper_app.
  intros H. apply andb_true_iff in H. destruct H as [_ H].
  apply andb_true_iff in H. tauto.
Qed.

(** X14. An investor name [_extract_investors] returns is a piece of the
    text itself, starting with a letter; so on the lowercased text the
    analyzer passes, investor names come out without capitals. *)
Theorem extracted_investors_come_from_the_text :
  forall text i : string,
    In i (_extract_investors text) ->
    Spec.occurs_in i text
    /\ (exists ch rest, i = String ch rest
                        /\ PyStr.is_ascii_letter ch = true)
    /\ (Spec.no_upper text = true -> Spec.no_upper i = true).
Proof.
  intros text i H. unfold _extract_investors, list_set in H.
  apply nodup_In in H. apply in_flat_map in H. destruct H as [p [Hp Hi]].
  destruct (investor_patterns_shape p Hp) as [Ha Hg].
  destruct (findall_captures true p Ha _ text i Hi) as [g [Hin [Lg Og]]].
  rewrite Hg in Hin. destruct Hin as [<-|[]].
  split; [exact Og|]. split.
  - destruct (cap_words_first_char true i Lg) as [ch [rest [-> Hch]]].
    exists ch, rest. split; [reflexivity|]. now apply chr_match_letter.
  - now apply no_upper_occurs.
Qed.

Lemma extracted_investors_come_from_the_text_witness :
  Spec.occurs_in "microsoft ventures" Examples.scenario_text
  /\ Spec.no_upper "microsoft ventures" = true.
Proof.
  destruct (extracted_investors_come_from_the_text
              Examples.scenario_text "microsoft ventures") as [H1 [_ H3]].
  - vm_compute. tauto.
  - split; [exact H1 | now apply H3].
Defined.

(* ================================================================= *)
(** * The fetch cycle: filter, parser, search and what the analyzer
      makes of fetched items *)

Lemma parse_date_aware (now : Z) (en : entry) :
  exists us, _parse_date now en = Aware us.
Proof.
  unfold _parse_date.
  destruct (published_parsed en) as [t|];
    [destruct (utc_datetime t); eauto|].
  destruct (updated_parsed en) as [t|];
    [destruct (utc_datetime t); eauto|eauto].
Qed.

Lemma parse_news_entry_shape (now : Z) (fetch : string -> string)
  (name : string) (en : entry) (n : news) :
  _parse_news_entry now fetch name en = Some n ->
  exists entry_link,
    e_link en = Some entry_link
    /\ n = mk_news (Some (get (e_title en))) (Some entry_link)
                   (Some (get (e_summary en))) (Some (fetch entry_link))
                   (Some name) (Some (_parse_date now en))
    /\ has_aware_date n = true.
Proof.
  unfold _parse_news_entry. destruct (e_link en) as [l|]; [|discriminate].
  destruct (forallb has_term (e_tags en)); [|discriminate].
  intros H. apply Some_inj in H. subst n. exists l.
  split; [reflexivity|]. split; [reflexivity|].
  unfold has_aware_date. cbn [published_date].
  now destruct (parse_date_aware now en) as [us ->].
Qed.

Lemma relevant_items_In (now : Z) (fetch : string -> string)
  (name : string) (entries : list entry) (n : news) :
  In n (relevant_items now fetch name entries) ->
  exists en, In en entries /\ _is_relevant_news en = true
             /\ _parse_news_entry now fetch name en = Some n.
Proof.
  induction entries as [|en rest IH]; cbn [relevant_items]; [intros []|].
  destruct (_is_relevant_news en) eqn:R.
  - destruct (_parse_news_entry now fetch name en) as [m|] eqn:P.
    + intros [<-|H].
      * exists en. split; [now left|]. now split.
      * destruct (IH H) as [en' [H1 H2]]. exists en'.
        split; [now right | exact H2].
    + intros H. destruct (IH H) as [en' [H1 H2]]. exists en'.
      split; [now right | exact H2].
  - intros H. destruct (IH H) as [en' [H1 H2]]. exists en'.
    split; [now right | exact H2].
Qed.

Lemma In_firstn {A : Type} (k : nat) (l : list A) (x : A) :
  In x (firstn k l) -> In x l.
Proof.
  intros H. rewrite <- (firstn_skipn k l). apply in_or_app. now left.
Qed.

Lemma fetch_all_news_In (results : list (py_result (list news)))
  (l : list news) (n : news) :
  fetch_all_news results = Returned l -> In n l ->
  exists items, In (Returned items) results /\ In n items.
Proof.
  unfold fetch_all_news, sort_by_date.
  destruct (existsb _ _ && existsb _ _)%bool; [discriminate|].
  intros H Hn. apply Returned_inj in H. subst l.
  apply In_firstn in Hn. apply sorted_desc_In in Hn.
  apply (subsequence_In _ _ _ (deduplicate_subsequence _)) in Hn.
  apply merge_results_In in Hn. now destruct Hn as [[]|Hn].
Qed.

Lemma fetch_all_news_aware_returns (results : list (py_result (list news))) :
  (forall items n, In (Returned items) results -> In n items ->
                   has_aware_date n = true) ->
  exists l, fetch_all_news results = Returned l /\ List.length l <= 50.
Proof.
  intros Haware. unfold fetch_all_news, sort_by_date.
  rewrite (existsb_false_all (fun n => is_naive (sort_key n))).
  - eexists. split; [reflexivity|]. apply firstn_le_length.
  - intros n Hn.
    apply (subsequence_In _ _ _ (deduplicate_subsequence _)) in Hn.
    apply merge_results_In in Hn. destruct Hn as [[]|[items [H1 H2]]].
    specialize (Haware items n H1 H2). unfold has_aware_date in Haware.
    unfold sort_key. destruct (published_date n) as [[us|us]|];
      try discriminate Haware. reflexivity.
Qed.

Lemma fetch_cycle_items (now : Z) (fetch : string -> string)
  (sources : list (string * option (list entry)))
  (items : list news) (n : news) :
  In (Returned items)
     (map (fun source => Returned (_fetch_from_source now fetch source))
          sources) ->
  In n items ->
  exists name feed en entry_link,
    In (name, Some feed) sources /\ In en feed
    /\ _is_relevant_news en = true
    /\ e_link en = Some entry_link
    /\ n = mk_news (Some (get (e_title en))) (Some entry_link)
                   (Some (get (e_summary en))) (Some (fetch entry_link))
                   (Some name) (Some (_parse_date now en))
    /\ has_aware_date n = true.
Proof.
  intros H Hn. apply in_map_iff in H. destruct H as [[name feed] [E Hs]].
  apply Returned_inj in E. subst items. unfold _fetch_from_source in Hn.
  cbn [fst snd] in Hn. destruct feed as [feed|]; [|destruct Hn].
  apply relevant_items_In in Hn. destruct Hn as [en [H1 [H2 H3]]].
  apply parse_news_entry_shape in H3. destruct H3 as [l [H3 [H4 H5]]].
  exists name, feed, en, l. tauto.
Qed.

(** X15. A fetch cycle never raises, whatever the feeds hold: a source
    whose feed failed adds nothing, and every item built carries a
    timezone-aware date, so the sort can compare them. It returns at
    most 50 items; each one was built from an entry of some feed that
    passed [_is_relevant_news] and has a link, and carries that source's
    name, the fetched content and the date [_parse_date] gives. *)
Theorem fetch_cycle_returns_relevant_items :
  forall (now : Z) (fetch : string -> string)
         (sources : list (string * option (list entry))),
    exists l,
      fetch_cycle now fetch sources = Returned l
      /\ List.length l <= 50
      /\ forall n, In n l ->
           exists name feed en entry_link,
             In (name, Some feed) sources /\ In en feed
             /\ _is_relevant_news en = true
             /\ e_link en = Some entry_link
             /\ n = mk_news (Some (get (e_title en))) (Some entry_link)
                            (Some (get (e_summary en)))
                            (Some (fetch entry_link))
                            (Some name) (Some (_parse_date now en))
             /\ has_aware_date n = true.
Proof.
  intros now fetch sources. unfold fetch_cycle.
  destruct (fetch_all_news_aware_returns
              (map (fun source =>
                      Returned (_fetch_from_source now fetch source))
                   sources)) as [l [Hl Hlen]].
  - intros items n H Hn.
    destruct (fetch_cycle_items now fetch sources items n H Hn)
      as (name & feed & en & k & H'). tauto.
  - exists l. split; [exact Hl|]. split; [exact Hlen|].
    intros n Hn.
    destruct (fetch_all_news_In _ l n Hl Hn) as [items [H1 H2]].
    exact (fetch_cycle_items now fetch sources items n H1 H2).
Qed.

Lemma aware_item_bare (e : env) (n : news) :
  has_aware_date n = true ->
  Loop.kept_result (analyze_single_news e n) = [mk_analyzed n None].
Proof.
  intros H. unfold analyze_single_news, _basic_analysis, _determine_urgency.
  unfold has_aware_date in H.
  destruct (published_date n) as [[us|us]|] eqn:E; try discriminate H.
  unfold Loop.kept_result, analyzed_truthy, news_truthy.
  cbn [analysis_of item]. rewrite E.
  now destruct (title n), (link n), (summary n), (content n), (source n).
Qed.

Lemma aware_items_bare (e : env) (l : list news) :
  (forall n, In n l -> has_aware_date n = true) ->
  analyze_news_batch e l = map (fun n => mk_analyzed n None) l.
Proof.
  intros H. rewrite analyze_news_batch_itemwise.
  induction l as [|n l IH]; [reflexivity|].
  cbn [flat_map map]. rewrite aware_item_bare by (apply H; now left).
  rewrite IH by (intros m Hm; apply H; now right). reflexivity.
Qed.

(** X16. No item of a fetch cycle ever gets an analysis: the batch
    analyzer returns every fetched item, in order, without the
    ['analysis'] key, whatever the feeds hold and whether or not an LLM
    is configured. *)
Theorem fetched_items_never_analyzed :
  forall (e : env) (now : Z) (fetch : string -> string)
         (sources : list (string * option (list entry))),
    exists l,
      fetch_cycle now fetch sources = Returned l
      /\ analyze_news_batch e l = map (fun n => mk_analyzed n None) l.
Proof.
  intros e now fetch sources. unfold fetch_cycle.
  destruct (fetch_all_news_aware_returns
              (map (fun source =>
                      Returned (_fetch_from_source now fetch source))
                   sources)) as [l [Hl _]].
  - intros items n H Hn.
    destruct (fetch_cycle_items now fetch sources items n H Hn)
      as (name & feed & en & k & H'). tauto.
  - exists l. split; [exact Hl|]. apply aware_items_bare.
    intros n Hn. destruct (fetch_all_news_In _ l n Hl Hn) as [items [H1 H2]].
    destruct (fetch_cycle_items now fetch sources items n H1 H2)
      as (name & feed & en & k & H'). tauto.
Qed.

Lemma count_bare_items (l : list news) :
  forall (c : nat) (seen : list analyzed),
    fold_left count_item (map (fun n => mk_analyzed n None) l)
              [("category_general", Trend.mk_data c "topic" seen)]
    = [("category_general",
        Trend.mk_data (c + List.length l) "topic"
                      (seen ++ map (fun n => mk_analyzed n None) l))].
Proof.
  induction l as [|n l IH]; intros c seen.
  - cbn [map fold_left List.length]. now rewrite Nat.add_0_r, app_nil_r.
  - cbn [map fold_left List.length]. unfold count_item at 2.
    unfold item_companies, category_key, item_category.
    cbn [analysis_of fold_left bump].
    change (String.eqb "category_general" ("category_" ++ "general"))
      with true. cbv iota. cbn [Trend.count Trend.category Trend.latest_news].
    rewrite IH, <- app_assoc. cbn [app].
    now replace (S c + List.length l) with (c + S (List.length l)) by lia.
Qed.

(** X17. Items without an analysis count as category [general] and
    name no company: for such a list [get_trending_topics] returns the
    single topic [category_general], counting all of them and keeping
    the first three, when there are two or more; and nothing for fewer
    than two. *)
Theorem trending_of_unanalyzed_items :
  forall l : list news,
    let news_list := map (fun n => mk_analyzed n None) l in
    get_trending_topics news_list
    = if Nat.leb 2 (List.length l)
      then [Trend.mk_topic "category_general" (List.length l) "topic"
                           (firstn 3 news_list)]
      else [].
Proof.
  intros l news_list. subst news_list. unfold get_trending_topics.
  destruct l as [|n l]; [reflexivity|].
  unfold count_topics. cbn [map fold_left]. unfold count_item at 2.
  unfold item_companies, category_key, item_category.
  cbn [analysis_of fold_left bump].
  rewrite count_bare_items. cbn [app List.length Nat.add].
  unfold trending. cbn [flat_map Trend.count Trend.category
                         Trend.latest_news].
  rewrite app_nil_r.
  destruct l as [|m l]; reflexivity.
Qed.

Lemma occurs_in_trans (a b c : string) :
  Spec.occurs_in a b -> Spec.occurs_in b c -> Spec.occurs_in a c.
Proof.
  intros [p [q ->]] [r [s ->]].
  exists (r ++ p)%string, (q ++ s)%string.
  now rewrite !append_assoc.
Qed.

Lemma any_keyword_occurs (keywords : list string) (content : string) :
  any_keyword keywords content = true <->
  exists keyword, In keyword keywords
                  /\ Spec.occurs_in (PyStr.lower keyword) content.
Proof.
  unfold any_keyword. rewrite existsb_exists.
  split; intros [k [H1 H2]]; exists k; split; try exact H1;
    now apply contains_occurs.
Qed.

(** X18. The keyword test of the filter is a substring test on the
    lowercased text, so the investment keyword [raise] also satisfies
    the AI keyword [AI]: every entry whose title or summary holds
    [raise], in any letter case, is taken as relevant. *)
Theorem raise_alone_makes_an_entry_relevant :
  forall en : entry,
    Spec.occurs_in "raise" (PyStr.lower (get (e_title en)))
    \/ Spec.occurs_in "raise" (PyStr.lower (get (e_summary en))) ->
    _is_relevant_news en = true.
Proof.
  intros en H. unfold _is_relevant_news. cbv zeta.
  assert (Hc : Spec.occurs_in "raise"
                 (PyStr.lower (get (e_title en)) ++ " "
                  ++ PyStr.lower (get (e_summary en)))%string).
  { destruct H as [[p [q ->]]|[p [q ->]]].
    - exists p, (q ++ " " ++ PyStr.lower (get (e_summary en)))%string.
      now rewrite !append_assoc.
    - exists (PyStr.lower (get (e_title en)) ++ " " ++ p)%string, q.
      now rewrite !append_assoc. }
  apply andb_true_iff. split; apply any_keyword_occurs.
  - exists "AI". split; [cbn; tauto|].
    apply occurs_in_trans with (b := "raise"); [|exact Hc].
    exists "r", "se". reflexivity.
  - exists "raise". split; [cbn; tauto | exact Hc].
Qed.

Lemma raise_alone_makes_an_entry_relevant_witness :
  _is_relevant_news
    (mk_entry (Some "Bakery chains Raise prices") (Some "https://example.com/b")
              None [] None None) = true.
Proof.
  apply raise_alone_makes_an_entry_relevant. left.
  exists "bakery chains ", " prices". reflexivity.
Defined.

Lemma filter_subsequence {A : Type} (f : A -> bool) (l : list A) :
  Spec.subsequence (filter f l) l.
Proof.
  induction l as [|x l IH]; cbn [filter]; [constructor|].
  destruct (f x); now constructor.
Qed.

Lemma contains_empty (s : string) : PyStr.contains EmptyString s = true.
Proof. apply contains_occurs. exists EmptyString, s. reflexivity. Qed.

(** X19. [search_news_by_keywords] passes on the failure of
    [fetch_all_news]; otherwise it returns, in their order, exactly the
    fetched items whose title, summary and content, joined by blanks
    and lowercased, hold one of the keywords lowercased. No keyword
    gives no item, and an empty keyword gives every fetched item. *)
Theorem search_news_by_keywords_filters :
  forall keywords : list string,
    (forall x, search_news_by_keywords keywords (Raised x) = Raised x)
    /\ forall all_news : list news,
         exists l,
           search_news_by_keywords keywords (Returned all_news) = Returned l
           /\ Spec.subsequence l all_news
           /\ (forall n, In n l <->
                 In n all_news
                 /\ exists keyword,
                      In keyword keywords
                      /\ Spec.occurs_in (PyStr.lower keyword)
                                        (search_text n))
           /\ (keywords = [] -> l = [])
           /\ (In EmptyString keywords -> l = all_news).
Proof.
  intros keywords. split; [reflexivity|]. intros all_news.
  eexists. split; [reflexivity|]. split; [apply filter_subsequence|].
  split; [|split].
  - intros n. now rewrite filter_In, any_keyword_occurs.
  - intros ->. induction all_news as [|n l IH]; [reflexivity | exact IH].
  - intros H. apply forallb_filter_id. apply forallb_forall.
    intros n _. unfold any_keyword. apply existsb_exists.
    exists EmptyString. split; [exact H | apply contains_empty].
Qed.

Lemma deduplicate_distinct_by (news_list : list news) :
  NoDup (map (fun n => get (link n)) (_deduplicate_news news_list))
  /\ NoDup (map normalized_title (_deduplicate_news news_list)).
Proof.
  induction news_list as [|n l IH] using rev_ind.
  - split; constructor.
  - rewrite deduplicate_snoc.
    destruct (existsb _ (_deduplicate_news l)) eqn:E; [exact IH|].
    apply not_same_title_or_link in E.
    rewrite !map_app. cbn [map]. rewrite !NoDup_snoc. tauto.
Qed.

Lemma NoDup_sorted_firstn {B : Type} (f : news -> B) (key : news -> Z)
  (k : nat) (l : list news) :
  NoDup (map f l) -> NoDup (map f (firstn k (PyList.sorted_desc key l))).
Proof.
  intros H. rewrite <- firstn_map.
  apply (NoDup_app_remove_r _ (skipn k (map f (PyList.sorted_desc key l)))).
  rewrite firstn_skipn.
  apply (Permutation_NoDup (l := map f l)); [|exact H].
  apply Permutation_map, Permutation_sym, sorted_desc_perm.
Qed.

Lemma fetch_all_news_distinct_sorted (results : list (py_result (list news)))
  (l : list news) :
  fetch_all_news results = Returned l ->
  NoDup (map (fun n => get (link n)) l)
  /\ NoDup (map normalized_title l)
  /\ StronglySorted (Spec.desc (fun n => micros (sort_key n))) l.
Proof.
  unfold fetch_all_news, sort_by_date.
  destruct (existsb _ _ && existsb _ _)%bool; [discriminate|].
  intros H. apply Returned_inj in H. subst l.
  destruct (deduplicate_distinct_by (merge_results results [])) as [H1 H2].
  split; [now apply NoDup_sorted_firstn|].
  split; [now apply NoDup_sorted_firstn|].
  apply firstn_sorted, sorted_desc_sorted.
Qed.

(** X20. What a fetch cycle returns holds no two items with the same
    link and no two with the same title, compared lowercased and
    stripped; and it is ordered by publication date, newest first.
    Sorting and cutting to 50 keep what deduplication established. *)
Theorem fetch_cycle_distinct_newest_first :
  forall (now : Z) (fetch : string -> string)
         (sources : list (string * option (list entry))),
    exists l,
      fetch_cycle now fetch sources = Returned l
      /\ NoDup (map (fun n => get (link n)) l)
      /\ NoDup (map normalized_title l)
      /\ StronglySorted (Spec.desc (fun n => micros (sort_key n))) l.
Proof.
  intros now fetch sources. unfold fetch_cycle.
  destruct (fetch_all_news_aware_returns
              (map (fun source =>
                      Returned (_fetch_from_source now fetch source))
                   sources)) as [l [Hl _]].
  - intros items n H Hn.
    destruct (fetch_cycle_items now fetch sources items n H Hn)
      as (name & feed & en & k & H'). tauto.
  - exists l. split; [exact Hl|].
    exact (fetch_all_news_distinct_sorted _ l Hl).
Qed.

(** The calendar behind [_parse_date] on three dates: the epoch, a leap
    day, and a day the constructor rejects. *)
Lemma utc_datetime_examples :
  utc_datetime (mk_time 1970 1 1 0 0 0) = Some 0%Z
  /\ utc_datetime (mk_time 2024 2 29 12 30 15) = Some 1709209815000000%Z
  /\ utc_datetime (mk_time 2023 2 29 12 30 15) = None
  /\ (forall now,
        _parse_date now
          (mk_entry None None None []
                    (Some (mk_time 2023 2 29 12 30 15))
                    (Some (mk_time 2023 2 28 12 30 15)))
        = Aware now).
Proof. repeat split. Qed.
